(** * GradAlign adversarial training step

    A shallow embedding of [GradAlignAdvTrainer._do_iter] and
    [GradAlignAdvTrainer._l2_norm_batch]
    (defenses/trainers/gradalign_adv_trainer.py).

    Numbers.  A float32 entry of a tensor is a real number of [R]: the
    development reasons about the ideal arithmetic the floating-point code
    approximates (no rounding, no overflow, no NaN).  An int64 entry (a class
    label, the constant of [torch.tensor([0])]) is an integer of [Z].

    Tensors.  A tensor of shape (N, C, H, W) is a list of N samples, each a
    list of C channels, each a list of H rows of W entries.

    Library code.  The network, the cross-entropy criterion, reverse-mode
    differentiation, the optimizer and the random generator belong to PyTorch
    or to the caller; they are the variables of section [GradAlign]. *)

From Stdlib Require Import Reals Lra List ZArith Bool Lia.
Import ListNotations.
Local Open Scope R_scope.

(** ** Nested-list tensors and elementwise operations *)

Module Tensor.

(** One sample, shape (C, H, W). *)
Definition t3 : Type := list (list (list R)).
(** One batch, shape (N, C, H, W). *)
Definition t4 : Type := list t3.

(** Elementwise combination of two lists of the same length.  PyTorch raises
    on operands whose shapes differ; every binary operation of [_do_iter]
    is applied to operands shaped like [X], and the theorems that need it
    carry the shape agreement as a hypothesis. *)
Fixpoint map2 {A B C : Type} (f : A -> B -> C) (l1 : list A) (l2 : list B) : list C :=
  match l1, l2 with
  | a :: l1', b :: l2' => f a b :: map2 f l1' l2'
  | _, _ => []
  end.

Definition map3 (f : R -> R) : t3 -> t3 := map (map (map f)).
Definition map4 (f : R -> R) : t4 -> t4 := map (map3 f).
Definition zip3 (f : R -> R -> R) : t3 -> t3 -> t3 := map2 (map2 (map2 f)).
Definition zip4 (f : R -> R -> R) : t4 -> t4 -> t4 := map2 (zip3 f).

(** A property of every entry. *)
Definition All3 (P : R -> Prop) : t3 -> Prop := Forall (Forall (Forall P)).
Definition All4 (P : R -> Prop) : t4 -> Prop := Forall (All3 P).

(** A relation between the entries of two tensors at the same index; it
    holds only between tensors of the same shape. *)
Definition Rel3 (P : R -> R -> Prop) : t3 -> t3 -> Prop :=
  Forall2 (Forall2 (Forall2 P)).
Definition Rel4 (P : R -> R -> Prop) : t4 -> t4 -> Prop := Forall2 (Rel3 P).

Definition same_shape : t4 -> t4 -> Prop := Rel4 (fun _ _ => True).

(** The entries in row-major order. *)
Definition flatten3 (s : t3) : list R := concat (map (@concat R) s).
Definition flatten4 (t : t4) : list R := concat (map flatten3 t).
Definition numel (t : t4) : nat := length (flatten4 t).

Definition Rsum (l : list R) : R := fold_right Rplus 0 l.

(** [s.sum([0, 1, 2])] of one sample, that is [.sum([1, 2, 3])] of a batch
    read at one index of dimension 0. *)
Definition sum123 (s : t3) : R := Rsum (map (fun ch => Rsum (map Rsum ch)) s).

End Tensor.
Import Tensor.

(** ** The PyTorch operations [_do_iter] calls *)

(** [torch.clamp(x, min=lo, max=hi)] is [min(max(x, lo), hi)]. *)
Definition clamp (lo hi x : R) : R := Rmin (Rmax x lo) hi.

(** [torch.sign]. *)
Definition sign (x : R) : R :=
  if Rlt_dec 0 x then 1 else if Rlt_dec x 0 then -1 else 0.

(** [a != 0] on one entry. *)
Definition nonzero (a : R) : bool := if Req_dec_T a 0 then false else true.

(** A float tensor with the one bit of its autograd state that [_do_iter]
    sets and clears: [requires_grad].  [.detach()] and [.data] give the same
    entries with the bit cleared; an operation's result carries the
    disjunction of its operands' bits. *)
Record tensor : Type := mk_tensor { data : t4; requires_grad : bool }.

Definition detach (t : tensor) : tensor := mk_tensor (data t) false.
Definition dot_data (t : tensor) : tensor := mk_tensor (data t) false.

Definition tmap (f : R -> R) (t : tensor) : tensor :=
  mk_tensor (map4 f (data t)) (requires_grad t).
Definition tzip (f : R -> R -> R) (a b : tensor) : tensor :=
  mk_tensor (zip4 f (data a) (data b)) (requires_grad a || requires_grad b).

Definition tadd : tensor -> tensor -> tensor := tzip Rplus.
Definition tsub : tensor -> tensor -> tensor := tzip Rminus.
(** [c * t] for a Python float [c]. *)
Definition tscale (c : R) : tensor -> tensor := tmap (Rmult c).
Definition tsign : tensor -> tensor := tmap sign.
Definition tclamp (lo hi : R) : tensor -> tensor := tmap (clamp lo hi).

(** [t[:n]] and [t[n:]] along dimension 0. *)
Definition slice_to (n : nat) (t : tensor) : tensor :=
  mk_tensor (firstn n (data t)) (requires_grad t).
Definition slice_from (n : nat) (t : tensor) : tensor :=
  mk_tensor (skipn n (data t)) (requires_grad t).

(** [torch.cat([a, b], dim=0)]. *)
Definition cat (a b : tensor) : tensor :=
  mk_tensor (data a ++ data b) (requires_grad a || requires_grad b).

(** [t[:n] += d] and [t[n:] += d]: the in-place addition into a slice, as the
    new content of [t]. *)
Definition iadd_slice_to (n : nat) (t d : tensor) : tensor :=
  mk_tensor (zip4 Rplus (firstn n (data t)) (data d) ++ skipn n (data t))
            (requires_grad t || requires_grad d).
Definition iadd_slice_from (n : nat) (t d : tensor) : tensor :=
  mk_tensor (firstn n (data t) ++ zip4 Rplus (skipn n (data t)) (data d))
            (requires_grad t || requires_grad d).

(** What [.item()] returns: a Python float for a float tensor, a Python int
    for an integer tensor. *)
Inductive scalar : Type :=
| PyFloat (r : R)
| PyInt (z : Z).

Definition value (s : scalar) : R :=
  match s with PyFloat r => r | PyInt z => IZR z end.
Definition is_float (s : scalar) : bool :=
  match s with PyFloat _ => true | PyInt _ => false end.

(** ** [_l2_norm_batch] *)

(** [norms = (v ** 2).sum([1, 2, 3]) ** 0.5] *)
Definition _l2_norm_batch (v : t4) : list R :=
  map (fun s => sqrt (sum123 (map3 (fun x => x ^ 2) s))) v.

(** ** Gradient alignment (lines 74-85) *)

(** [((grad1**2).sum([1,2,3])**0.5 != 0) * ((grad2**2).sum([1,2,3])**0.5 != 0)]:
    the product of two boolean tensors is their conjunction. *)
Definition grads_nnz_idx (grad1 grad2 : t4) : list bool :=
  map2 andb
       (map nonzero (map (fun s => sqrt (sum123 (map3 (fun x => x ^ 2) s))) grad1))
       (map nonzero (map (fun s => sqrt (sum123 (map3 (fun x => x ^ 2) s))) grad2)).

(** [t[mask]] for a boolean mask over dimension 0: the samples at the indices
    where the mask is true, in order. *)
Definition index_mask {A : Type} (t : list A) (mask : list bool) : list A :=
  map fst (filter snd (combine t mask)).

(** [grad / norms[:, None, None, None]]: every entry of sample [i] divided by
    [norms[i]]. *)
Definition div_rows (grad : t4) (norms : list R) : t4 :=
  map2 (fun s n => map3 (fun x => x / n) s) grad norms.

(** [cos.mean()]. *)
Definition mean (l : list R) : R := Rsum l / INR (length l).

(** The local variables of lines 74-85 after line 85. *)
Record alignment : Type := mk_alignment {
  nnz_idx : list bool;
  grad1_kept : t4;
  grad2_kept : t4;
  grad1_norms : list R;
  grad2_norms : list R;
  grad1_normalized : t4;
  grad2_normalized : t4;
  cos : list R;
  gradalign_loss : scalar
}.

Definition align (grad1 grad2 : t4) : alignment :=
  let idx := grads_nnz_idx grad1 grad2 in
  let g1 := index_mask grad1 idx in
  let g2 := index_mask grad2 idx in
  let n1 := _l2_norm_batch g1 in
  let n2 := _l2_norm_batch g2 in
  let g1n := div_rows g1 n1 in
  let g2n := div_rows g2 n2 in
  let c := map sum123 (zip4 Rmult g1n g2n) in
  (* gradalign_loss = torch.tensor([0]): one int64 zero *)
  let zero := PyInt 0 in
  mk_alignment idx g1 g2 n1 n2 g1n g2n c
    (if (0 <? length c)%nat then PyFloat (1 - mean c) else zero).

(** ** Fast adversarial example (lines 70-72) *)

(** [X_new] is the clamped doubled batch of line 62, [grad1] the gradient of
    line 67. *)
Definition fast_adv (eps alpha : R) (X X_new grad1 : tensor) : tensor :=
  (* X_adv = X_new[:len(X)] + self.alpha*grad1.data.sign() *)
  let X_adv := tadd (slice_to (length (data X)) X_new)
                    (tscale alpha (tsign (dot_data grad1))) in
  (* delta = torch.clamp(X_adv - X, min=-self.eps, max=self.eps).detach() *)
  let delta := detach (tclamp (- eps) eps (tsub X_adv X)) in
  (* X_adv = torch.clamp(X + delta, min=0, max=1).detach() *)
  detach (tclamp 0 1 (tadd X delta)).

(** ** The two stages in the specification's words *)

(** "compute X_adv = X + alpha * sign(grad1.data) [...] Clamp the offset
    into [-eps, eps] around X, then clamp the result into [0,1]. Detach
    X_adv": the sign step taken from the batch [X] itself. *)
Definition fast_adv_spec (eps alpha : R) (X grad1 : tensor) : tensor :=
  let X_adv := tadd X (tscale alpha (tsign (dot_data grad1))) in
  let offset := tclamp (- eps) eps (tsub X_adv X) in
  detach (tclamp 0 1 (tadd X offset)).

(** "L2-norm over (channel, height, width)" of one sample. *)
Definition l2_norm (s : t3) : R := sqrt (sum123 (map3 (fun x => x ^ 2) s)).

(** "keep only batch indices i where L2-norm [...] of grad1[i] is nonzero
    AND likewise for grad2[i]". *)
Definition kept_pairs (grad1 grad2 : t4) : list (t3 * t3) :=
  filter (fun ab => nonzero (l2_norm (fst ab)) && nonzero (l2_norm (snd ab)))
         (combine grad1 grad2).

(** "L2-normalize grad1 and grad2 per-sample, take elementwise product, sum
    over (channel, height, width) to get per-sample cosine similarity". *)
Definition cosine_similarity (a b : t3) : R :=
  sum123 (zip3 Rmult (map3 (fun x => x / l2_norm a) a)
                     (map3 (fun x => x / l2_norm b) b)).

(** "average over the filtered subset. If the filtered subset is empty, the
    alignment loss is defined as zero [...] Final alignment loss = 1 - mean
    cosine similarity". *)
Definition gradalign_spec (grad1 grad2 : t4) : R :=
  match kept_pairs grad1 grad2 with
  | [] => 0
  | ps => 1 - Rsum (map (fun ab => cosine_similarity (fst ab) (snd ab)) ps)
              / INR (length ps)
  end.

(** ** Memory *)

Inductive device : Type := CPU | CUDA (index : nat).

Definition device_eqb (a b : device) : bool :=
  match a, b with
  | CPU, CPU => true
  | CUDA i, CUDA j => Nat.eqb i j
  | _, _ => false
  end.

(** The tensor objects a caller can hold a reference to. *)
Inductive obj : Type :=
| Images (t : tensor)
| Labels (y : list Z).

Record cell : Type := mk_cell { on : device; content : obj }.

Definition loc : Type := nat.
Definition heap : Type := list cell.

Definition alloc (c : cell) (h : heap) : loc * heap := (length h, h ++ [c]).

Fixpoint update (l : loc) (c : cell) (h : heap) : heap :=
  match h, l with
  | [], _ => []
  | _ :: h', O => c :: h'
  | c0 :: h', S l' => c0 :: update l' c h'
  end.

(** [t.to(device)]: the object itself when it is on the device already, a
    copy on the device otherwise. *)
Definition to_ (dev : device) (l : loc) (h : heap) : option (loc * heap) :=
  match nth_error h l with
  | None => None
  | Some c =>
      if device_eqb (on c) dev then Some (l, h)
      else Some (alloc (mk_cell dev (content c)) h)
  end.

Definition read_images (l : loc) (h : heap) : option tensor :=
  match nth_error h l with
  | Some (mk_cell _ (Images t)) => Some t
  | _ => None
  end.

Definition read_labels (l : loc) (h : heap) : option (list Z) :=
  match nth_error h l with
  | Some (mk_cell _ (Labels y)) => Some y
  | _ => None
  end.

(** In-place modification of the tensor at [l]. *)
Definition modify (f : tensor -> tensor) (l : loc) (h : heap) : option heap :=
  match nth_error h l with
  | Some (mk_cell d (Images t)) => Some (update l (mk_cell d (Images (f t))) h)
  | _ => None
  end.

Notation "x <- c ;; k" :=
  (match c with Some x => k | None => None end)
    (at level 61, c at next level, right associativity).
Notation "' p <- c ;; k" :=
  (match c with Some p => k | None => None end)
    (at level 61, p pattern, c at next level, right associativity).

(** ** The training step *)

Section GradAlign.

(** The network's parameters, their [.grad] fields, the optimizer's buffers
    (momentum, moments) and hyperparameters (param_groups), the scheduler,
    and the state of PyTorch's default random generator. *)
Variables Params Grads OptState OptHyper Sched Rng : Type.

(** [self.model(x)]: the logits, one list per sample. *)
Variable model : Params -> t4 -> list (list R).
(** [nn.CrossEntropyLoss()(pre, y)], mean-reduced. *)
Variable CrossEntropyLoss : list (list R) -> list Z -> R.
(** [torch.autograd.grad(loss, [d1, d2], create_graph=True)]: [loss] is
    given as the function of the two leaves that the graph records; the
    gradients are returned at the leaves' values. *)
Variable autograd_grad : (t4 -> t4 -> R) -> t4 -> t4 -> t4 * t4.
(** [optimizer.zero_grad()] on the parameters' [.grad]. *)
Variable zero_grad : Grads -> Grads.
(** [cost.backward()]: [cost] is given as the function of the parameters
    that the graph records; its gradient at the current parameters is
    accumulated into [.grad]. *)
Variable backward : (Params -> R) -> Params -> Grads -> Grads.
(** [optimizer.step()]. *)
Variable optimizer_step : OptHyper -> OptState -> Params -> Grads -> Params * OptState.
(** One draw of the generator in [0, 1) and the generator's next state. *)
Variable next_uniform : Rng -> R * Rng.

(** [self]: the constructor's arguments and [self.device]. *)
Record trainer : Type := mk_trainer {
  self_device : device;
  eps : R;
  alpha : R;
  grad_align_cos_lambda : R
}.

(** Everything a step can reach besides [self]. *)
Record state : Type := mk_state {
  params : Params;
  param_grad : Grads;
  opt_buffers : OptState;
  opt_hyper : OptHyper;
  scheduler : Sched;
  generator : Rng;
  memory : heap
}.

(** *** Random perturbations (lines 55-56) *)

(** Fill a list left to right, threading the generator. *)
Fixpoint fill {A B : Type} (f : A -> Rng -> B * Rng) (l : list A) (g : Rng)
  : list B * Rng :=
  match l with
  | [] => ([], g)
  | a :: l' =>
      let (b, g1) := f a g in
      let (bs, g2) := fill f l' g1 in
      (b :: bs, g2)
  end.

(** One entry of [uniform_(from, to)]: [u * (to - from) + from]. *)
Definition uniform_entry (from to : R) (_ : R) (g : Rng) : R * Rng :=
  let (u, g') := next_uniform g in (u * (to - from) + from, g').

Definition sample (from to : R) (t : tensor) (g : Rng) : tensor * Rng :=
  let (d, g') := fill (fill (fill (fill (uniform_entry from to)))) (data t) g in
  (mk_tensor d (requires_grad t), g').

(** [t.uniform_(from, to)]; PyTorch raises when [from > to]. *)
Definition uniform_ (from to : R) (t : tensor) (g : Rng) : option (tensor * Rng) :=
  if Rlt_dec to from then None else Some (sample from to t g).

(** [torch.empty_like(t)]: the entries are uninitialised; [uniform_]
    overwrites them before they are read. *)
Definition empty_like (t : tensor) : tensor :=
  mk_tensor (map4 (fun _ => 0) (data t)) false.

(** [t.requires_grad = True]. *)
Definition set_requires_grad (t : tensor) : tensor := mk_tensor (data t) true.

(** The first [n] draws from [g], and [g] after [n] draws. *)
Fixpoint draws (n : nat) (g : Rng) : list R :=
  match n with
  | O => []
  | S n' => let (u, g') := next_uniform g in u :: draws n' g'
  end.

Fixpoint advance (n : nat) (g : Rng) : Rng :=
  match n with
  | O => g
  | S n' => advance n' (snd (next_uniform g))
  end.

(** *** [_do_iter] *)

(** The local variables of [_do_iter] when it returns; [X_new_sum] is
    [X_new] after line 61 (before the clamp of line 62 rebinds the name),
    [grad1] and [grad2] are the gradients of line 67 (before line 75 rebinds
    the names), [ga] holds the locals of lines 74-85. *)
Record locals : Type := mk_locals {
  X : tensor;
  Y : list Z;
  Y_new : list Z;
  delta1 : tensor;
  delta2 : tensor;
  X_new_sum : tensor;
  X_new : tensor;
  loss : R;
  grad1 : tensor;
  grad2 : tensor;
  X_adv : tensor;
  ga : alignment;
  ce_loss : scalar;
  cost : scalar
}.

(** Lines 60-65 as the graph records them: the loss as a function of the
    parameters and of the two leaves [delta1] and [delta2]; [buf] is the
    doubled batch of line 52 and [n] is [len(X)]. *)
Definition joint_loss (n : nat) (buf : tensor) (y_new : list Z)
           (p : Params) (d1 d2 : t4) : R :=
  let x := iadd_slice_to n buf (mk_tensor d1 true) in
  let x := iadd_slice_from n x (mk_tensor d2 true) in
  let x := tclamp 0 1 x in
  CrossEntropyLoss (model p (data x)) y_new.

(** Lines 62-96, which touch neither the memory nor the generator: [x], [y]
    are the contents of [X] and [Y], [buf] the doubled batch of line 52,
    [x_sum] the content of [X_new] after line 61, [g] and [m] the generator
    and the memory after line 61. *)
Definition lines_62_96 (self : trainer) (s : state) (x : tensor) (y y_new : list Z)
           (buf d1 d2 x_sum : tensor) (g : Rng) (m : heap) : locals * state :=
  (* X_new = torch.clamp(X_new, 0, 1) *)
  let x_new := tclamp 0 1 x_sum in
  (* pre = self.model(X_new); loss = nn.CrossEntropyLoss()(pre, Y_new) *)
  let l := CrossEntropyLoss (model (params s) (data x_new)) y_new in
  (* grad1, grad2 = torch.autograd.grad(loss, [delta1, delta2], create_graph=True) *)
  let grads_of p :=
    autograd_grad (joint_loss (length (data x)) buf y_new p) (data d1) (data d2) in
  let g1 := mk_tensor (fst (grads_of (params s))) true in
  let g2 := mk_tensor (snd (grads_of (params s))) true in
  (* lines 70-72 *)
  let x_adv := fast_adv (eps self) (alpha self) x x_new g1 in
  (* lines 74-85 *)
  let a := align (data g1) (data g2) in
  (* pre = self.model(X_adv); ce_loss = nn.CrossEntropyLoss()(pre, Y) *)
  let ce_of p := CrossEntropyLoss (model p (data x_adv)) y in
  let ce := ce_of (params s) in
  (* cost = ce_loss + self.grad_align_cos_lambda * gradalign_loss *)
  let c := ce + grad_align_cos_lambda self * value (gradalign_loss a) in
  (* the same cost as the graph records it: [X_adv] is detached, the two
     gradients were created with their graph *)
  let cost_of p :=
    ce_of p
    + grad_align_cos_lambda self
      * value (gradalign_loss (align (fst (grads_of p)) (snd (grads_of p)))) in
  (* self.optimizer.zero_grad(); cost.backward(); self.optimizer.step() *)
  let gr := zero_grad (param_grad s) in
  let gr := backward cost_of (params s) gr in
  let (p', b') := optimizer_step (opt_hyper s) (opt_buffers s) (params s) gr in
  (mk_locals x y y_new d1 d2 x_sum x_new l g1 g2 x_adv a (PyFloat ce) (PyFloat c),
   mk_state p' gr b' (opt_hyper s) (scheduler s) g m).

Definition _do_iter_locals (self : trainer) (train_data : loc * loc) (s : state)
  : option (locals * state) :=
  let (images, labels) := train_data in
  (* X = images.to(self.device); Y = labels.to(self.device) *)
  '(X, m) <- to_ (self_device self) images (memory s) ;;
  '(Y, m) <- to_ (self_device self) labels m ;;
  (* X_new = torch.cat([X.clone(), X.clone()], dim=0) *)
  x <- read_images X m ;;
  let (X_new, m) := alloc (mk_cell (self_device self) (Images (cat x x))) m in
  (* the content of X_new at this point, from which the graph of lines
     60-62 starts *)
  buf <- read_images X_new m ;;
  (* Y_new = torch.cat([Y.clone(), Y.clone()], dim=0) *)
  y <- read_labels Y m ;;
  let y_new := (y ++ y)%list in
  (* delta1 = torch.empty_like(X).uniform_(-self.eps, self.eps), and delta2 *)
  x <- read_images X m ;;
  '(d1, g) <- uniform_ (- eps self) (eps self) (empty_like x) (generator s) ;;
  x <- read_images X m ;;
  '(d2, g) <- uniform_ (- eps self) (eps self) (empty_like x) g ;;
  (* delta1.requires_grad = True; delta2.requires_grad = True *)
  let d1 := set_requires_grad d1 in
  let d2 := set_requires_grad d2 in
  (* X_new[:len(X)] += delta1 *)
  x <- read_images X m ;;
  m <- modify (fun t => iadd_slice_to (length (data x)) t d1) X_new m ;;
  (* X_new[len(X):] += delta2 *)
  x <- read_images X m ;;
  m <- modify (fun t => iadd_slice_from (length (data x)) t d2) X_new m ;;
  x_sum <- read_images X_new m ;;
  x <- read_images X m ;;
  y <- read_labels Y m ;;
  Some (lines_62_96 self s x y y_new buf d1 d2 x_sum g m).

(** [return cost.item(), ce_loss.item(), gradalign_loss.item()] *)
Definition _do_iter (self : trainer) (train_data : loc * loc) (s : state)
  : option ((scalar * scalar * scalar) * state) :=
  '(v, s') <- _do_iter_locals self train_data s ;;
  Some ((cost v, ce_loss v, gradalign_loss (ga v)), s').

(** * Properties *)

(** ** Lists and tensors *)

Lemma map2_length {A B C : Type} (f : A -> B -> C) (l1 : list A) (l2 : list B) :
  length l1 = length l2 -> length (map2 f l1 l2) = length l1.
Proof.
  revert l2; induction l1 as [|a l1 IH]; intros [|b l2]; simpl; try easy.
  intros H; f_equal; apply IH; now inversion H.
Qed.

Lemma map_map2 {A B C D : Type} (h : C -> D) (f : A -> B -> C) l1 l2 :
  map h (map2 f l1 l2) = map2 (fun a b => h (f a b)) l1 l2.
Proof.
  revert l2; induction l1 as [|a l1 IH]; intros [|b l2]; simpl; try easy.
  now rewrite IH.
Qed.

Lemma map2_map_r {A B B' C : Type} (f : A -> B -> C) (h : B' -> B) l1 l2 :
  map2 f l1 (map h l2) = map2 (fun a b => f a (h b)) l1 l2.
Proof.
  revert l2; induction l1 as [|a l1 IH]; intros [|b l2]; simpl; try easy.
  now rewrite IH.
Qed.

Lemma map2_map2_l {A B C D : Type} (f : C -> A -> D) (h : A -> B -> C) l1 l2 :
  map2 f (map2 h l1 l2) l1 = map2 (fun a b => f (h a b) a) l1 l2.
Proof.
  revert l2; induction l1 as [|a l1 IH]; intros [|b l2]; simpl; try easy.
  now rewrite IH.
Qed.

Lemma map2_map2_r {A B C D : Type} (f : A -> C -> D) (h : B -> A -> C) l1 l2 :
  map2 f l1 (map2 h l2 l1) = map2 (fun a b => f a (h b a)) l1 l2.
Proof.
  revert l2; induction l1 as [|a l1 IH]; intros [|b l2]; simpl; try easy.
  now rewrite IH.
Qed.

Lemma map2_ext {A B C : Type} (f f' : A -> B -> C) l1 l2 :
  (forall a b, f a b = f' a b) -> map2 f l1 l2 = map2 f' l1 l2.
Proof.
  intros E; revert l2; induction l1 as [|a l1 IH]; intros [|b l2]; simpl; try easy.
  now rewrite E, IH.
Qed.

(** Fusion of the elementwise operations on batches. *)

Lemma map4_map4 (f h : R -> R) (t : t4) :
  map4 f (map4 h t) = map4 (fun x => f (h x)) t.
Proof.
  unfold map4, map3. rewrite map_map. apply map_ext; intros s.
  rewrite map_map. apply map_ext; intros c.
  rewrite map_map. apply map_ext; intros r. now rewrite map_map.
Qed.

Lemma map4_zip4 (h : R -> R) (f : R -> R -> R) (a b : t4) :
  map4 h (zip4 f a b) = zip4 (fun x y => h (f x y)) a b.
Proof.
  unfold map4, map3, zip4, zip3.
  rewrite map_map2. apply map2_ext; intros s s'.
  rewrite map_map2. apply map2_ext; intros c c'.
  rewrite map_map2. apply map2_ext; intros r r'.
  now rewrite map_map2.
Qed.

Lemma zip4_map4_r (f : R -> R -> R) (h : R -> R) (a b : t4) :
  zip4 f a (map4 h b) = zip4 (fun x y => f x (h y)) a b.
Proof.
  unfold map4, map3, zip4, zip3.
  rewrite map2_map_r. apply map2_ext; intros s s'.
  rewrite map2_map_r. apply map2_ext; intros c c'.
  rewrite map2_map_r. apply map2_ext; intros r r'.
  now rewrite map2_map_r.
Qed.

Lemma zip4_zip4_r (f h : R -> R -> R) (a b : t4) :
  zip4 f a (zip4 h b a) = zip4 (fun x y => f x (h y x)) a b.
Proof.
  unfold zip4, zip3.
  rewrite map2_map2_r. apply map2_ext; intros s s'.
  rewrite map2_map2_r. apply map2_ext; intros c c'.
  rewrite map2_map2_r. apply map2_ext; intros r r'.
  now rewrite map2_map2_r.
Qed.

(** Pointwise relations through the elementwise operations. *)

Lemma Forall2_map2 {A B C D : Type} (P : A -> D -> Prop)
      (Q1 : A -> B -> Prop) (Q2 : A -> C -> Prop) (f : B -> C -> D) l l1 l2 :
  (forall x u v, Q1 x u -> Q2 x v -> P x (f u v)) ->
  Forall2 Q1 l l1 -> Forall2 Q2 l l2 -> Forall2 P l (map2 f l1 l2).
Proof.
  intros HP H1; revert l2; induction H1; intros l2 H2; inversion H2; subst; simpl.
  - constructor.
  - constructor; [now apply HP | now apply IHForall2].
Qed.

Lemma Forall2_map_r {A B C : Type} (P : A -> C -> Prop) (Q : A -> B -> Prop)
      (f : B -> C) l l1 :
  (forall x u, Q x u -> P x (f u)) -> Forall2 Q l l1 -> Forall2 P l (map f l1).
Proof.
  intros HP H; induction H; simpl; constructor; auto.
Qed.

Lemma Forall2_diag {A : Type} (P : A -> A -> Prop) (Q : A -> Prop) l :
  (forall x, Q x -> P x x) -> Forall Q l -> Forall2 P l l.
Proof.
  intros HP H; induction H; constructor; auto.
Qed.

Lemma Rel4_zip4 (P Q1 Q2 : R -> R -> Prop) (f : R -> R -> R) (t a b : t4) :
  (forall x u v, Q1 x u -> Q2 x v -> P x (f u v)) ->
  Rel4 Q1 t a -> Rel4 Q2 t b -> Rel4 P t (zip4 f a b).
Proof.
  intros HP. unfold Rel4, Rel3, zip4, zip3.
  apply Forall2_map2; intros s s1 s2.
  apply Forall2_map2; intros c c1 c2.
  apply Forall2_map2; intros r r1 r2.
  now apply Forall2_map2.
Qed.

Lemma Rel4_map4_r (P Q : R -> R -> Prop) (f : R -> R) (t a : t4) :
  (forall x u, Q x u -> P x (f u)) -> Rel4 Q t a -> Rel4 P t (map4 f a).
Proof.
  intros HP. unfold Rel4, Rel3, map4, map3.
  apply Forall2_map_r; intros s s1.
  apply Forall2_map_r; intros c c1.
  apply Forall2_map_r; intros r r1.
  now apply Forall2_map_r.
Qed.

Lemma Rel4_diag (P : R -> R -> Prop) (Q : R -> Prop) (t : t4) :
  (forall x, Q x -> P x x) -> All4 Q t -> Rel4 P t t.
Proof.
  intros HP. unfold Rel4, Rel3, All4, All3.
  apply Forall2_diag; intros s.
  apply Forall2_diag; intros c.
  apply Forall2_diag; intros r.
  now apply Forall2_diag.
Qed.

Lemma Rel4_impl (P Q : R -> R -> Prop) (a b : t4) :
  (forall x y, P x y -> Q x y) -> Rel4 P a b -> Rel4 Q a b.
Proof.
  intros HP. unfold Rel4, Rel3.
  apply Forall2_impl; intros s s'.
  apply Forall2_impl; intros c c'.
  apply Forall2_impl; intros r r'.
  now apply Forall2_impl.
Qed.

Lemma Rel4_length (P : R -> R -> Prop) (a b : t4) :
  Rel4 P a b -> length a = length b.
Proof. apply Forall2_length. Qed.

Lemma All4_True (t : t4) : All4 (fun _ => True) t.
Proof.
  unfold All4, All3.
  repeat (apply Forall_forall; intros ? _). exact I.
Qed.

Lemma same_shape_refl (t : t4) : same_shape t t.
Proof. apply Rel4_diag with (Q := fun _ => True); auto using All4_True. Qed.

(** ** Memory *)

Lemma device_eqb_eq (a b : device) : device_eqb a b = true -> a = b.
Proof.
  destruct a as [|i], b as [|j]; simpl; try easy.
  intros H; apply Nat.eqb_eq in H; now subst.
Qed.

Lemma nth_error_app_some {A : Type} (h e : list A) (l : nat) (c : A) :
  nth_error h l = Some c -> nth_error (h ++ e) l = Some c.
Proof.
  intros H. rewrite nth_error_app1; [exact H|].
  apply nth_error_Some. now rewrite H.
Qed.

Lemma nth_error_last {A : Type} (h : list A) (c : A) :
  nth_error (h ++ [c]) (length h) = Some c.
Proof. rewrite nth_error_app2, Nat.sub_diag; [reflexivity | lia]. Qed.

Lemma update_last (h : heap) (c c0 : cell) :
  update (length h) c (h ++ [c0]) = h ++ [c].
Proof. induction h as [|a h IH]; simpl; [reflexivity | now rewrite IH]. Qed.

Lemma to_run (dev : device) (l : loc) (h : heap) (d : device) (o : obj) :
  nth_error h l = Some (mk_cell d o) ->
  exists l' e, to_ dev l h = Some (l', h ++ e)
               /\ nth_error (h ++ e) l' = Some (mk_cell dev o).
Proof.
  intros H. unfold to_. rewrite H. simpl.
  destruct (device_eqb d dev) eqn:E.
  - apply device_eqb_eq in E; subst d.
    exists l, []. rewrite app_nil_r. auto.
  - exists (length h), [mk_cell dev o]. split; [reflexivity | apply nth_error_last].
Qed.

Lemma read_images_cell (l : loc) (h : heap) (d : device) (t : tensor) :
  nth_error h l = Some (mk_cell d (Images t)) -> read_images l h = Some t.
Proof. intros H. unfold read_images. now rewrite H. Qed.

Lemma read_labels_cell (l : loc) (h : heap) (d : device) (y : list Z) :
  nth_error h l = Some (mk_cell d (Labels y)) -> read_labels l h = Some y.
Proof. intros H. unfold read_labels. now rewrite H. Qed.

Lemma modify_last (f : tensor -> tensor) (h : heap) (d : device) (t : tensor) :
  modify f (length h) (h ++ [mk_cell d (Images t)])
  = Some (h ++ [mk_cell d (Images (f t))]).
Proof. unfold modify. now rewrite nth_error_last, update_last. Qed.

(** ** One run of the step *)

(** With an image tensor at [images], a label tensor at [labels] and
    [0 <= eps], the step runs to its end; the memory it leaves is the memory
    it found followed by the tensors it allocated. *)
Lemma _do_iter_locals_run (self : trainer) (images labels : loc) (s : state)
      (dx dy : device) (x0 : tensor) (y0 : list Z) :
  nth_error (memory s) images = Some (mk_cell dx (Images x0)) ->
  nth_error (memory s) labels = Some (mk_cell dy (Labels y0)) ->
  0 <= eps self ->
  let n := length (data x0) in
  let r1 := sample (- eps self) (eps self) (empty_like x0) (generator s) in
  let r2 := sample (- eps self) (eps self) (empty_like x0) (snd r1) in
  let d1 := set_requires_grad (fst r1) in
  let d2 := set_requires_grad (fst r2) in
  let x_sum := iadd_slice_from n (iadd_slice_to n (cat x0 x0) d1) d2 in
  exists e,
    _do_iter_locals self (images, labels) s
    = Some (lines_62_96 self s x0 y0 (y0 ++ y0) (cat x0 x0) d1 d2 x_sum
                        (snd r2) (memory s ++ e)).
Proof.
  intros Hx Hy He n r1 r2 d1 d2 x_sum.
  unfold _do_iter_locals.
  destruct (to_run (self_device self) _ _ _ _ Hx) as (lx & e1 & -> & Hx1).
  apply nth_error_app_some with (e := e1) in Hy.
  destruct (to_run (self_device self) _ _ _ _ Hy) as (ly & e2 & -> & Hy2).
  apply nth_error_app_some with (e := e2) in Hx1.
  set (m2 := (memory s ++ e1) ++ e2) in *.
  rewrite (read_images_cell _ _ _ _ Hx1).
  unfold alloc.
  set (c0 := mk_cell (self_device self) (Images (cat x0 x0))).
  assert (Hx3 : forall c, read_images lx (m2 ++ [c]) = Some x0).
  { intros c. eapply read_images_cell, nth_error_app_some, Hx1. }
  assert (Hy3 : forall c, read_labels ly (m2 ++ [c]) = Some y0).
  { intros c. eapply read_labels_cell, nth_error_app_some, Hy2. }
  rewrite (read_images_cell _ _ _ _ (nth_error_last m2 c0)).
  rewrite Hy3, !Hx3.
  unfold uniform_.
  destruct (Rlt_dec (eps self) (- eps self)) as [Hlt|_]; [lra|].
  fold r1. destruct r1 as [t1 g1] eqn:E1. simpl snd in r2. simpl fst in d1.
  destruct (Rlt_dec (eps self) (- eps self)) as [Hlt|_]; [lra|].
  fold r2. destruct r2 as [t2 g2] eqn:E2. simpl fst in d2. simpl snd.
  fold d1 d2.
  unfold c0. rewrite modify_last, Hx3, modify_last.
  rewrite (read_images_cell _ _ _ _ (nth_error_last m2 _)).
  rewrite Hx3, Hy3.
  exists (e1 ++ e2 ++ [mk_cell (self_device self) (Images x_sum)]).
  unfold m2. now rewrite !app_assoc.
Qed.

Lemma firstn_length_app {A : Type} (a b : list A) : firstn (length a) (a ++ b) = a.
Proof. induction a as [|x a IH]; simpl; [now destruct b | now rewrite IH]. Qed.

Lemma skipn_length_app {A : Type} (a b : list A) : skipn (length a) (a ++ b) = b.
Proof. induction a as [|x a IH]; simpl; [reflexivity | exact IH]. Qed.

Lemma Forall2_trans_gen {A B C : Type} (P : A -> B -> Prop) (Q : B -> C -> Prop)
      (S : A -> C -> Prop) la lb lc :
  (forall a b c, P a b -> Q b c -> S a c) ->
  Forall2 P la lb -> Forall2 Q lb lc -> Forall2 S la lc.
Proof.
  intros HS H1; revert lc; induction H1; intros lc H2; inversion H2; subst;
    constructor; eauto.
Qed.

Lemma Rel4_trans (P Q S : R -> R -> Prop) (a b c : t4) :
  (forall x y z, P x y -> Q y z -> S x z) ->
  Rel4 P a b -> Rel4 Q b c -> Rel4 S a c.
Proof.
  intros HS. unfold Rel4, Rel3.
  apply Forall2_trans_gen; intros s1 s2 s3.
  apply Forall2_trans_gen; intros c1 c2 c3.
  apply Forall2_trans_gen; intros r1 r2 r3.
  now apply Forall2_trans_gen.
Qed.

Lemma Rel4_All4_r (P : R -> R -> Prop) (Q : R -> Prop) (a b : t4) :
  (forall x y, P x y -> Q y) -> Rel4 P a b -> All4 Q b.
Proof.
  intros HQ. unfold Rel4, Rel3, All4, All3.
  assert (G : forall (A B : Type) (P' : A -> B -> Prop) (Q' : B -> Prop),
             (forall x y, P' x y -> Q' y) ->
             forall l l', Forall2 P' l l' -> Forall Q' l').
  { intros A B P' Q' H l l' H2; induction H2; constructor; eauto. }
  apply G; intros s s'. apply G; intros c c'. apply G; intros r r'. now apply G.
Qed.

Lemma Forall2_concat_length {A B : Type} (fa : A -> list R) (fb : B -> list R) la lb :
  Forall2 (fun a b => length (fa a) = length (fb b)) la lb ->
  length (concat (map fa la)) = length (concat (map fb lb)).
Proof.
  intros H; induction H; simpl; [reflexivity|].
  rewrite !length_app. congruence.
Qed.

Lemma same_shape_numel (a b : t4) : same_shape a b -> numel a = numel b.
Proof.
  unfold same_shape, Rel4, Rel3, numel, flatten4, flatten3. intros H.
  apply Forall2_concat_length. eapply Forall2_impl; [|exact H].
  intros s s' Hs. apply Forall2_concat_length. eapply Forall2_impl; [|exact Hs].
  intros c c' Hc.
  rewrite <- (map_id c), <- (map_id c').
  apply Forall2_concat_length. eapply Forall2_impl; [|exact Hc].
  intros r r' Hr. now apply Forall2_length in Hr.
Qed.

(** ** The random perturbations *)

Lemma draws_app (n m : nat) (g : Rng) :
  draws (n + m) g = draws n g ++ draws m (advance n g).
Proof.
  revert g; induction n as [|n IH]; intros g; simpl; [reflexivity|].
  destruct (next_uniform g) as [u g']; simpl. now rewrite IH.
Qed.

Lemma advance_add (n m : nat) (g : Rng) :
  advance (n + m) g = advance m (advance n g).
Proof. revert g; induction n as [|n IH]; intros g; simpl; [reflexivity | apply IH]. Qed.

(** Filling a list consumes, entry after entry, as many draws as it writes. *)
Lemma fill_draws {A B : Type} (f : A -> Rng -> B * Rng) (fl : B -> list R)
      (aff : R -> R) :
  (forall a g, fl (fst (f a g)) = map aff (draws (length (fl (fst (f a g)))) g)
               /\ snd (f a g) = advance (length (fl (fst (f a g)))) g) ->
  forall l g,
    concat (map fl (fst (fill f l g)))
    = map aff (draws (length (concat (map fl (fst (fill f l g))))) g)
    /\ snd (fill f l g) = advance (length (concat (map fl (fst (fill f l g))))) g.
Proof.
  intros Hf l; induction l as [|a l IH]; intros g; simpl; [auto|].
  specialize (Hf a g). destruct (f a g) as [b g1]; simpl in Hf.
  specialize (IH g1). destruct (fill f l g1) as [bs g2]; simpl in *.
  destruct Hf as [Hb ->], IH as [Hbs ->].
  rewrite length_app, draws_app, map_app, advance_add.
  now rewrite <- Hb, <- Hbs.
Qed.

Lemma fill_Forall2 {A B : Type} (f : A -> Rng -> B * Rng) (Q : A -> B -> Prop) :
  (forall a g, Q a (fst (f a g))) ->
  forall l g, Forall2 Q l (fst (fill f l g)).
Proof.
  intros Hf l; induction l as [|a l IH]; intros g; simpl; [constructor|].
  specialize (Hf a g). destruct (f a g) as [b g1].
  specialize (IH g1). destruct (fill f l g1) as [bs g2]. now constructor.
Qed.

Lemma uniform_entry_draws (from to x : R) (g : Rng) :
  [fst (uniform_entry from to x g)]
  = map (fun u => u * (to - from) + from) (draws 1 g)
  /\ snd (uniform_entry from to x g) = advance 1 g.
Proof.
  unfold uniform_entry; simpl. now destruct (next_uniform g).
Qed.

(** The entries of a sampled tensor, in row-major order, are the affine
    images of consecutive draws, one draw per entry; the generator is left
    after the last of them. *)
Lemma sample_draws (from to : R) (t : tensor) (g : Rng) :
  flatten4 (data (fst (sample from to t g)))
  = map (fun u => u * (to - from) + from) (draws (numel (data t)) g)
  /\ snd (sample from to t g) = advance (numel (data t)) g
  /\ same_shape (data t) (data (fst (sample from to t g))).
Proof.
  unfold sample.
  pose proof (fill_draws (fill (fill (fill (uniform_entry from to))))
                (fun s => concat (map (fun c => concat (map (fun r => concat (map (fun x => [x]) r)) c)) s))
                (fun u => u * (to - from) + from)) as H4.
  assert (Hs : same_shape (data t)
                 (fst (fill (fill (fill (fill (uniform_entry from to)))) (data t) g))).
  { unfold same_shape, Rel4, Rel3.
    apply fill_Forall2; intros s g1. apply fill_Forall2; intros c g2.
    apply fill_Forall2; intros r g3. apply fill_Forall2; intros x g4. exact I. }
  assert (Hfl : forall d : t4,
             concat (map (fun s => concat (map (fun c => concat (map (fun r => concat (map (fun x => [x]) r)) c)) s)) d)
             = flatten4 d).
  { intros d. unfold flatten4, flatten3. f_equal. apply map_ext; intros s.
    f_equal. apply map_ext; intros c. f_equal.
    rewrite <- (map_id c) at 2. apply map_ext; intros r.
    induction r as [|x r IH]; simpl; [reflexivity | now rewrite IH]. }
  specialize (H4 (fun s g1 =>
    fill_draws (fill (fill (uniform_entry from to)))
      (fun c => concat (map (fun r => concat (map (fun x => [x]) r)) c))
      (fun u => u * (to - from) + from)
      (fun c g2 =>
         fill_draws (fill (uniform_entry from to))
           (fun r => concat (map (fun x => [x]) r))
           (fun u => u * (to - from) + from)
           (fun r g3 =>
              fill_draws (uniform_entry from to) (fun x => [x])
                (fun u => u * (to - from) + from)
                (fun x g4 => uniform_entry_draws from to x g4) r g3) c g2) s g1)
    (data t) g).
  rewrite !Hfl in H4.
  destruct (fill (fill (fill (fill (uniform_entry from to)))) (data t) g) as [d g'].
  simpl in *. fold (numel d) in H4.
  rewrite <- (same_shape_numel _ _ Hs) in H4. tauto.
Qed.

(** Draws in [0, 1) give entries between [from] and [to]. *)
Lemma sample_range (from to : R) (t : tensor) (g : Rng) :
  (forall g', 0 <= fst (next_uniform g') < 1) -> from <= to ->
  All4 (fun d => from <= d <= to) (data (fst (sample from to t g))).
Proof.
  intros Hu Hft. unfold sample.
  assert (Hs : Rel4 (fun _ d => from <= d <= to) (data t)
                 (fst (fill (fill (fill (fill (uniform_entry from to)))) (data t) g))).
  { unfold Rel4, Rel3.
    apply fill_Forall2; intros s g1. apply fill_Forall2; intros c g2.
    apply fill_Forall2; intros r g3. apply fill_Forall2; intros x g4.
    unfold uniform_entry. specialize (Hu g4).
    destruct (next_uniform g4) as [u g5]; simpl in *. nra. }
  destruct (fill (fill (fill (fill (uniform_entry from to)))) (data t) g) as [d g'].
  simpl in *. eapply Rel4_All4_r; [|exact Hs]. auto.
Qed.

Lemma empty_like_shape (t : tensor) : same_shape (data t) (data (empty_like t)).
Proof.
  unfold empty_like; simpl.
  apply Rel4_map4_r with (Q := fun _ _ => True); [auto | apply same_shape_refl].
Qed.

Lemma same_shape_trans (a b c : t4) :
  same_shape a b -> same_shape b c -> same_shape a c.
Proof. apply Rel4_trans; auto. Qed.

(** ** The doubled batch (lines 52-62) *)

Lemma doubled_batch_data (x d1 d2 : tensor) :
  length (data x) = length (data d1) ->
  data (iadd_slice_from (length (data x))
          (iadd_slice_to (length (data x)) (cat x x) d1) d2)
  = zip4 Rplus (data x) (data d1) ++ zip4 Rplus (data x) (data d2).
Proof.
  intros Hl. unfold iadd_slice_from, iadd_slice_to, cat; simpl.
  rewrite firstn_length_app, skipn_length_app.
  assert (Hn : length (data x) = length (zip4 Rplus (data x) (data d1))).
  { unfold zip4. now rewrite map2_length. }
  rewrite Hn at 1 2. now rewrite firstn_length_app, skipn_length_app.
Qed.

Lemma doubled_batch_halves (x d1 d2 : tensor) :
  length (data x) = length (data d1) ->
  let x_sum := iadd_slice_from (length (data x))
                 (iadd_slice_to (length (data x)) (cat x x) d1) d2 in
  firstn (length (data x)) (data x_sum) = zip4 Rplus (data x) (data d1)
  /\ skipn (length (data x)) (data x_sum) = zip4 Rplus (data x) (data d2).
Proof.
  intros Hl x_sum. unfold x_sum. rewrite doubled_batch_data by exact Hl.
  assert (Hn : length (data x) = length (zip4 Rplus (data x) (data d1))).
  { unfold zip4. now rewrite map2_length. }
  rewrite Hn. now rewrite firstn_length_app, skipn_length_app.
Qed.

Lemma firstn_map {A B : Type} (f : A -> B) (n : nat) (l : list A) :
  firstn n (map f l) = map f (firstn n l).
Proof.
  revert l; induction n as [|n IH]; intros [|a l]; simpl; try easy.
  now rewrite IH.
Qed.

(** The two perturbations of one run, with the generator they leave. *)
Lemma perturbations (self : trainer) (x0 : tensor) (g : Rng) :
  let r1 := sample (- eps self) (eps self) (empty_like x0) g in
  let r2 := sample (- eps self) (eps self) (empty_like x0) (snd r1) in
  same_shape (data x0) (data (fst r1))
  /\ same_shape (data x0) (data (fst r2))
  /\ flatten4 (data (fst r1)) ++ flatten4 (data (fst r2))
     = map (fun u => u * (eps self - - eps self) + - eps self)
           (draws (2 * numel (data x0)) g)
  /\ snd r2 = advance (2 * numel (data x0)) g.
Proof.
  intros r1 r2.
  destruct (sample_draws (- eps self) (eps self) (empty_like x0) g)
    as (F1 & G1 & S1).
  destruct (sample_draws (- eps self) (eps self) (empty_like x0) (snd r1))
    as (F2 & G2 & S2).
  fold r1 in F1, G1, S1. fold r2 in F2, G2, S2.
  pose proof (empty_like_shape x0) as S0.
  rewrite <- (same_shape_numel _ _ S0) in F1, G1, F2, G2.
  repeat split.
  - exact (same_shape_trans _ _ _ S0 S1).
  - exact (same_shape_trans _ _ _ S0 S2).
  - rewrite F1, F2, G1. replace (2 * numel (data x0))%nat
      with (numel (data x0) + numel (data x0))%nat by lia.
    now rewrite draws_app, map_app.
  - rewrite G2, G1. replace (2 * numel (data x0))%nat
      with (numel (data x0) + numel (data x0))%nat by lia.
    now rewrite advance_add.
Qed.

(** C8.  With a generator whose draws lie in [0, 1): every entry of
    [delta1] and of [delta2] is [u * (eps - -eps) + -eps] for a draw [u] of
    its own (the entries of [delta1] then those of [delta2], in row-major
    order, are the images of the first [2 * numel X] consecutive draws, no
    draw serving twice), hence lies in [-eps, eps]; both are shaped like [X]
    and require gradients; before the clamp of line 62 the first half of
    [X_new] is [X + delta1] and the second half [X + delta2], entry by entry;
    the clamp into [0, 1] is taken of that tensor as it is, and its result
    still requires gradients. *)
Theorem dual_perturbation_construction
        (self : trainer) (images labels : loc) (s : state)
        (dx dy : device) (x0 : tensor) (y0 : list Z) :
  (forall g, 0 <= fst (next_uniform g) < 1) ->
  nth_error (memory s) images = Some (mk_cell dx (Images x0)) ->
  nth_error (memory s) labels = Some (mk_cell dy (Labels y0)) ->
  0 <= eps self ->
  exists v s',
    _do_iter_locals self (images, labels) s = Some (v, s')
    /\ X v = x0
    /\ All4 (fun d => - eps self <= d <= eps self) (data (delta1 v))
    /\ All4 (fun d => - eps self <= d <= eps self) (data (delta2 v))
    /\ same_shape (data x0) (data (delta1 v))
    /\ same_shape (data x0) (data (delta2 v))
    /\ flatten4 (data (delta1 v)) ++ flatten4 (data (delta2 v))
       = map (fun u => u * (eps self - - eps self) + - eps self)
             (draws (2 * numel (data x0)) (generator s))
    /\ requires_grad (delta1 v) = true
    /\ requires_grad (delta2 v) = true
    /\ firstn (length (data x0)) (data (X_new_sum v))
       = zip4 Rplus (data x0) (data (delta1 v))
    /\ skipn (length (data x0)) (data (X_new_sum v))
       = zip4 Rplus (data x0) (data (delta2 v))
    /\ X_new v = tclamp 0 1 (X_new_sum v)
    /\ requires_grad (X_new v) = true.
Proof.
  intros Hu Hx Hy He.
  destruct (_do_iter_locals_run self images labels s dx dy x0 y0 Hx Hy He)
    as [e Hrun]. cbv zeta in Hrun.
  destruct (perturbations self x0 (generator s)) as (S1 & S2 & Hd & _).
  cbv zeta in S1, S2, Hd.
  pose proof (sample_range (- eps self) (eps self) (empty_like x0) (generator s) Hu)
    as R1.
  pose proof (sample_range (- eps self) (eps self) (empty_like x0)
                (snd (sample (- eps self) (eps self) (empty_like x0) (generator s))) Hu)
    as R2.
  rewrite Hrun. unfold lines_62_96.
  destruct (optimizer_step _ _ _ _) as [p' b'].
  eexists _, _. split; [reflexivity|]. simpl.
  destruct (doubled_batch_halves x0
              (set_requires_grad (fst (sample (- eps self) (eps self) (empty_like x0) (generator s))))
              (set_requires_grad (fst (sample (- eps self) (eps self) (empty_like x0)
                 (snd (sample (- eps self) (eps self) (empty_like x0) (generator s)))))))
    as [H1 H2].
  { simpl. exact (Rel4_length _ _ _ S1). }
  cbv zeta in H1, H2. simpl in H1, H2.
  repeat split; try assumption; try reflexivity;
    try (apply R1; lra); try (apply R2; lra).
  apply orb_true_r.
Qed.

(** ** The fast adversarial example (lines 70-72) *)

Lemma clamp_bounds (lo hi x : R) : lo <= hi -> lo <= clamp lo hi x <= hi.
Proof.
  intros H. unfold clamp, Rmin, Rmax.
  destruct (Rle_dec x lo); destruct (Rle_dec _ hi); lra.
Qed.

Lemma clamp_id (lo hi x : R) : lo <= x <= hi -> clamp lo hi x = x.
Proof.
  intros H. unfold clamp, Rmin, Rmax.
  destruct (Rle_dec x lo); destruct (Rle_dec _ hi); lra.
Qed.

(** Lines 70-72 entry by entry. *)
Lemma fast_adv_data (e a : R) (x x_new g1 : tensor) :
  data (fast_adv e a x x_new g1)
  = zip4 (fun xi ai => clamp 0 1 (xi + clamp (- e) e (ai - xi))) (data x)
         (zip4 (fun ni gi => ni + a * sign gi)
               (firstn (length (data x)) (data x_new)) (data g1)).
Proof.
  unfold fast_adv, detach, tclamp, tadd, tsub, tscale, tsign, tmap, tzip,
    slice_to, dot_data; simpl.
  repeat (rewrite map4_map4 || rewrite zip4_map4_r || rewrite map4_zip4
          || rewrite zip4_zip4_r).
  reflexivity.
Qed.

Lemma fast_adv_detached (e a : R) (x x_new g1 : tensor) :
  requires_grad (fast_adv e a x x_new g1) = false.
Proof. reflexivity. Qed.

(** The eps-ball and the pixel range, for operands shaped like [x]. *)
Lemma fast_adv_ball (e a : R) (x x_new g1 : tensor) :
  0 <= e ->
  All4 (fun xi => 0 <= xi <= 1) (data x) ->
  same_shape (data x) (firstn (length (data x)) (data x_new)) ->
  same_shape (data x) (data g1) ->
  Rel4 (fun xi vi => Rmax 0 (xi - e) <= vi <= Rmin 1 (xi + e))
       (data x) (data (fast_adv e a x x_new g1)).
Proof.
  intros He H01 Hn Hg. rewrite fast_adv_data.
  apply Rel4_zip4 with (Q1 := fun xi ui => xi = ui /\ 0 <= xi <= 1)
                       (Q2 := fun _ _ => True).
  - intros xi ui ai [<- Hxi] _.
    assert (Hd : - e <= clamp (- e) e (ai - xi) <= e)
      by (apply clamp_bounds; lra).
    set (d := clamp (- e) e (ai - xi)) in *. clearbody d.
    unfold clamp, Rmax.
    destruct (Rle_dec (xi + d) 0); destruct (Rle_dec 0 (xi - e));
      unfold Rmin;
      repeat match goal with |- context [Rle_dec ?u ?v] => destruct (Rle_dec u v) end;
      lra.
  - apply Rel4_diag with (Q := fun xi => 0 <= xi <= 1); auto.
  - apply Rel4_zip4 with (Q1 := fun _ _ => True) (Q2 := fun _ _ => True); auto.
Qed.

(** The first half of the clamped doubled batch. *)
Lemma X_new_first_half (x d1 d2 : tensor) :
  same_shape (data x) (data d1) ->
  let x_sum := iadd_slice_from (length (data x))
                 (iadd_slice_to (length (data x)) (cat x x) d1) d2 in
  firstn (length (data x)) (data (tclamp 0 1 x_sum))
  = zip4 (fun xi di => clamp 0 1 (xi + di)) (data x) (data d1).
Proof.
  intros Hs x_sum.
  change (data (tclamp 0 1 x_sum)) with (map (map3 (clamp 0 1)) (data x_sum)).
  rewrite firstn_map. fold (map4 (clamp 0 1)).
  destruct (doubled_batch_halves x d1 d2 (Rel4_length _ _ _ Hs)) as [H1 _].
  fold x_sum in H1. rewrite H1.
  now rewrite map4_zip4.
Qed.

(** C1, as the code has it.  The sign step of line 70 is taken from
    [X_new[:len(X)]], the first half of the clamped doubled batch, that is
    from [clamp(X + delta1, 0, 1)], and not from [X]: entry by entry,
    [X_adv = clamp(X + clamp(clamp(X + delta1, 0, 1) + alpha * sign(grad1) - X, -eps, eps), 0, 1)],
    and [X_adv] does not require gradients (it is detached). *)
Theorem fast_adv_from_perturbed_batch
        (self : trainer) (images labels : loc) (s : state)
        (dx dy : device) (x0 : tensor) (y0 : list Z) :
  nth_error (memory s) images = Some (mk_cell dx (Images x0)) ->
  nth_error (memory s) labels = Some (mk_cell dy (Labels y0)) ->
  0 <= eps self ->
  exists v s',
    _do_iter_locals self (images, labels) s = Some (v, s')
    /\ X v = x0
    /\ same_shape (data x0) (data (delta1 v))
    /\ data (X_adv v)
       = zip4 (fun xi ai => clamp 0 1 (xi + clamp (- eps self) (eps self) (ai - xi)))
              (data x0)
              (zip4 (fun ni gi => ni + alpha self * sign gi)
                    (zip4 (fun xi di => clamp 0 1 (xi + di)) (data x0) (data (delta1 v)))
                    (data (grad1 v)))
    /\ requires_grad (X_adv v) = false.
Proof.
  intros Hx Hy He.
  destruct (_do_iter_locals_run self images labels s dx dy x0 y0 Hx Hy He)
    as [e Hrun]. cbv zeta in Hrun.
  destruct (perturbations self x0 (generator s)) as (S1 & _).
  cbv zeta in S1.
  rewrite Hrun. unfold lines_62_96.
  destruct (optimizer_step _ _ _ _) as [p' b'].
  eexists _, _. split; [reflexivity|]. simpl X. simpl delta1. simpl X_adv. simpl grad1.
  repeat split; try assumption.
  rewrite fast_adv_data. now rewrite X_new_first_half.
Qed.

(** C4.  For a batch with entries in [0, 1], [0 <= eps] and any [alpha],
    [X_adv] has the shape of [X] and every entry of it lies between
    [max(0, X - eps)] and [min(1, X + eps)], hence in [0, 1];
    [torch.autograd.grad] is taken to return a gradient shaped like the leaf
    it differentiates by. *)
Theorem X_adv_in_eps_ball_and_pixel_range
        (self : trainer) (images labels : loc) (s : state)
        (dx dy : device) (x0 : tensor) (y0 : list Z) :
  (forall f a b, same_shape a (fst (autograd_grad f a b))) ->
  nth_error (memory s) images = Some (mk_cell dx (Images x0)) ->
  nth_error (memory s) labels = Some (mk_cell dy (Labels y0)) ->
  0 <= eps self ->
  All4 (fun xi => 0 <= xi <= 1) (data x0) ->
  exists v s',
    _do_iter_locals self (images, labels) s = Some (v, s')
    /\ X v = x0
    /\ Rel4 (fun xi vi => Rmax 0 (xi - eps self) <= vi <= Rmin 1 (xi + eps self))
            (data x0) (data (X_adv v))
    /\ All4 (fun vi => 0 <= vi <= 1) (data (X_adv v)).
Proof.
  intros Hg Hx Hy He H01.
  destruct (_do_iter_locals_run self images labels s dx dy x0 y0 Hx Hy He)
    as [e Hrun]. cbv zeta in Hrun.
  destruct (perturbations self x0 (generator s)) as (S1 & _).
  cbv zeta in S1.
  rewrite Hrun. unfold lines_62_96.
  destruct (optimizer_step _ _ _ _) as [p' b'].
  eexists _, _. split; [reflexivity|]. simpl X. simpl X_adv.
  split; [reflexivity|].
  match goal with |- ?A /\ _ => assert (Hball : A) end.
  { apply fast_adv_ball; try assumption.
    - rewrite X_new_first_half by exact S1.
      apply Rel4_zip4 with (Q1 := fun _ _ => True) (Q2 := fun _ _ => True); auto.
      apply same_shape_refl.
    - simpl data. eapply same_shape_trans; [exact S1|]. apply Hg. }
  split; [exact Hball|].
  eapply Rel4_All4_r; [|exact Hball].
  intros xi vi [Hlo Hhi].
  pose proof (Rmax_l 0 (xi - eps self)). pose proof (Rmin_l 1 (xi + eps self)).
  lra.
Qed.

(** ** Gradient alignment (lines 74-85) *)

Lemma _l2_norm_batch_map (v : t4) : _l2_norm_batch v = map l2_norm v.
Proof. reflexivity. Qed.

Lemma combine_nil_r {A B : Type} (l : list A) : combine l (@nil B) = [].
Proof. now destruct l. Qed.

Lemma index_mask_combine {A B : Type} (p : A * B -> bool) (l1 : list A) (l2 : list B) :
  index_mask l1 (map p (combine l1 l2)) = map fst (filter p (combine l1 l2))
  /\ index_mask l2 (map p (combine l1 l2)) = map snd (filter p (combine l1 l2)).
Proof.
  unfold index_mask.
  revert l2; induction l1 as [|a l1 IH]; intros [|b l2]; simpl; auto.
  destruct (IH l2) as [IH1 IH2].
  destruct (p (a, b)); simpl; now rewrite IH1, IH2.
Qed.

Lemma grads_nnz_idx_combine (g1 g2 : t4) :
  grads_nnz_idx g1 g2
  = map (fun ab => nonzero (l2_norm (fst ab)) && nonzero (l2_norm (snd ab)))
        (combine g1 g2).
Proof.
  unfold grads_nnz_idx.
  revert g2; induction g1 as [|a g1 IH]; intros [|b g2]; simpl; auto.
  now rewrite IH.
Qed.

(** Indexing each gradient by the mask keeps the pairs whose two norms are
    nonzero. *)
Lemma index_mask_kept (g1 g2 : t4) :
  index_mask g1 (grads_nnz_idx g1 g2) = map fst (kept_pairs g1 g2)
  /\ index_mask g2 (grads_nnz_idx g1 g2) = map snd (kept_pairs g1 g2).
Proof. rewrite grads_nnz_idx_combine. apply index_mask_combine. Qed.

Lemma cos_of_pairs (ps : list (t3 * t3)) :
  map sum123
      (zip4 Rmult
            (div_rows (map fst ps) (_l2_norm_batch (map fst ps)))
            (div_rows (map snd ps) (_l2_norm_batch (map snd ps))))
  = map (fun ab => cosine_similarity (fst ab) (snd ab)) ps.
Proof.
  induction ps as [|[a b] ps IH]; simpl; [reflexivity|].
  f_equal. exact IH.
Qed.

(** The locals of lines 74-85 in terms of the kept pairs. *)
Lemma align_kept (g1 g2 : t4) :
  let ps := kept_pairs g1 g2 in
  let c := map (fun ab => cosine_similarity (fst ab) (snd ab)) ps in
  grad1_kept (align g1 g2) = map fst ps
  /\ grad2_kept (align g1 g2) = map snd ps
  /\ grad1_norms (align g1 g2) = map (fun ab => l2_norm (fst ab)) ps
  /\ grad2_norms (align g1 g2) = map (fun ab => l2_norm (snd ab)) ps
  /\ cos (align g1 g2) = c
  /\ gradalign_loss (align g1 g2)
     = if (0 <? length ps)%nat then PyFloat (1 - mean c) else PyInt 0.
Proof.
  intros ps c. destruct (index_mask_kept g1 g2) as [K1 K2].
  unfold align; simpl. rewrite K1, K2. fold ps.
  rewrite cos_of_pairs. fold c.
  repeat split; try reflexivity.
  - unfold _l2_norm_batch. now rewrite map_map.
  - unfold _l2_norm_batch. now rewrite map_map.
  - unfold c. now rewrite length_map.
Qed.

Lemma nonzero_true (a : R) : nonzero a = true <-> a <> 0.
Proof. unfold nonzero. destruct (Req_dec_T a 0); split; intros; easy. Qed.

Lemma l2_norm_nonneg (s : t3) : 0 <= l2_norm s.
Proof. apply sqrt_pos. Qed.

Lemma kept_pairs_positive (g1 g2 : t4) :
  Forall (fun ab => 0 < l2_norm (fst ab) /\ 0 < l2_norm (snd ab)) (kept_pairs g1 g2).
Proof.
  apply Forall_forall. intros [a b] Hin. unfold kept_pairs in Hin.
  apply filter_In in Hin. destruct Hin as [_ H]. simpl in *.
  apply andb_true_iff in H. destruct H as [Ha Hb].
  apply nonzero_true in Ha, Hb.
  pose proof (l2_norm_nonneg a). pose proof (l2_norm_nonneg b). lra.
Qed.

Lemma combine_app_eq {A B : Type} (l1 r1 : list A) (l2 r2 : list B) :
  length l1 = length l2 ->
  combine (l1 ++ r1) (l2 ++ r2) = combine l1 l2 ++ combine r1 r2.
Proof.
  revert l2; induction l1 as [|a l1 IH]; intros [|b l2] H; simpl in *; try easy.
  now rewrite IH by lia.
Qed.

(** A pair that fails the filter leaves no trace among the kept pairs. *)
Lemma kept_pairs_drop (l1 r1 l2 r2 : t4) (z1 z2 : t3) :
  length l1 = length l2 ->
  l2_norm z1 = 0 \/ l2_norm z2 = 0 ->
  kept_pairs (l1 ++ z1 :: r1) (l2 ++ z2 :: r2) = kept_pairs (l1 ++ r1) (l2 ++ r2).
Proof.
  intros Hl Hz. unfold kept_pairs.
  rewrite !combine_app_eq by exact Hl. simpl. rewrite !filter_app. simpl.
  replace (nonzero (l2_norm z1) && nonzero (l2_norm z2)) with false; [reflexivity|].
  symmetry. apply andb_false_iff.
  destruct Hz as [-> | ->]; [left | right]; unfold nonzero;
    now destruct (Req_dec_T 0 0).
Qed.

Lemma count_kept (g1 g2 : t4) :
  length (kept_pairs g1 g2) = length (filter (fun b : bool => b) (grads_nnz_idx g1 g2)).
Proof.
  rewrite grads_nnz_idx_combine. unfold kept_pairs.
  induction (combine g1 g2) as [|ab l IH]; simpl; [reflexivity|].
  destruct (nonzero (l2_norm (fst ab)) && nonzero (l2_norm (snd ab))); simpl;
    now rewrite IH.
Qed.

(** No pair is kept when every sample has a zero norm for one of the two
    gradients. *)
Lemma kept_pairs_none (g1 g2 : t4) :
  Forall (fun ab => l2_norm (fst ab) = 0 \/ l2_norm (snd ab) = 0) (combine g1 g2) ->
  kept_pairs g1 g2 = [].
Proof.
  intros Hz. unfold kept_pairs.
  induction Hz as [|ab l Hab _ IH]; simpl; [reflexivity|].
  replace (nonzero (l2_norm (fst ab)) && nonzero (l2_norm (snd ab))) with false;
    [exact IH|].
  symmetry. apply andb_false_iff.
  destruct Hab as [-> | ->]; [left | right]; unfold nonzero;
    now destruct (Req_dec_T 0 0).
Qed.

(** C2.  The code's alignment penalty is the specification's: the samples
    the mask keeps are those whose two L2 norms are nonzero, [cos] holds
    their cosine similarities (sum over channel, height and width of the
    product of the two L2-normalised gradients), and [gradalign_loss] is one
    minus the mean of [cos]; when no sample is kept, and so when every
    sample has a zero-norm [grad1] or [grad2], [gradalign_loss] is the
    constant zero of line 82 and no mean is taken. *)
Theorem gradalign_loss_refines_spec (g1 g2 : t4) :
  grad1_kept (align g1 g2) = map fst (kept_pairs g1 g2)
  /\ grad2_kept (align g1 g2) = map snd (kept_pairs g1 g2)
  /\ cos (align g1 g2)
     = map (fun ab => cosine_similarity (fst ab) (snd ab)) (kept_pairs g1 g2)
  /\ value (gradalign_loss (align g1 g2)) = gradalign_spec g1 g2
  /\ (kept_pairs g1 g2 = [] -> gradalign_loss (align g1 g2) = PyInt 0)
  /\ (Forall (fun ab => l2_norm (fst ab) = 0 \/ l2_norm (snd ab) = 0) (combine g1 g2) ->
      kept_pairs g1 g2 = []).
Proof.
  destruct (align_kept g1 g2) as (K1 & K2 & _ & _ & Kc & Kl). cbv zeta in *.
  repeat split; try assumption.
  - rewrite Kl. unfold gradalign_spec, mean. rewrite length_map.
    destruct (kept_pairs g1 g2) as [|ab ps]; simpl; [reflexivity | reflexivity].
  - intros E. rewrite Kl, E. reflexivity.
  - apply kept_pairs_none.
Qed.

(** C7.  Every divisor of lines 78-79 is strictly positive: the norms are
    recomputed on the samples the mask kept, one norm per kept sample, and a
    kept sample has nonzero norms for both gradients.  A sample that fails
    the filter is absent from the alignment term: [cos] has one entry per
    kept sample, and removing a failing sample from the batch changes
    neither [cos] nor [gradalign_loss]. *)
Theorem normalization_divisors_positive (g1 g2 : t4) :
  Forall (fun n => 0 < n) (grad1_norms (align g1 g2))
  /\ Forall (fun n => 0 < n) (grad2_norms (align g1 g2))
  /\ grad1_normalized (align g1 g2)
     = div_rows (grad1_kept (align g1 g2)) (grad1_norms (align g1 g2))
  /\ grad2_normalized (align g1 g2)
     = div_rows (grad2_kept (align g1 g2)) (grad2_norms (align g1 g2))
  /\ length (grad1_norms (align g1 g2)) = length (grad1_kept (align g1 g2))
  /\ length (grad2_norms (align g1 g2)) = length (grad2_kept (align g1 g2))
  /\ length (cos (align g1 g2))
     = length (filter (fun b : bool => b) (nnz_idx (align g1 g2)))
  /\ (forall l1 z1 r1 l2 z2 r2,
         g1 = l1 ++ z1 :: r1 -> g2 = l2 ++ z2 :: r2 -> length l1 = length l2 ->
         l2_norm z1 = 0 \/ l2_norm z2 = 0 ->
         cos (align g1 g2) = cos (align (l1 ++ r1) (l2 ++ r2))
         /\ gradalign_loss (align g1 g2) = gradalign_loss (align (l1 ++ r1) (l2 ++ r2))).
Proof.
  destruct (align_kept g1 g2) as (K1 & K2 & N1 & N2 & Kc & Kl). cbv zeta in *.
  pose proof (kept_pairs_positive g1 g2) as Hp.
  repeat split; try reflexivity.
  - rewrite N1. apply Forall_map. eapply Forall_impl; [|exact Hp]. simpl; tauto.
  - rewrite N2. apply Forall_map. eapply Forall_impl; [|exact Hp]. simpl; tauto.
  - rewrite N1, K1. now rewrite !length_map.
  - rewrite N2, K2. now rewrite !length_map.
  - rewrite Kc, length_map. apply count_kept.
  - subst g1 g2.
    destruct (align_kept (l1 ++ r1) (l2 ++ r2)) as (_ & _ & _ & _ & Kc' & _).
    cbv zeta in Kc'. rewrite Kc, Kc'. now rewrite kept_pairs_drop.
  - subst g1 g2.
    destruct (align_kept (l1 ++ r1) (l2 ++ r2)) as (_ & _ & _ & _ & _ & Kl').
    cbv zeta in Kl'. rewrite Kl, Kl'. now rewrite kept_pairs_drop.
Qed.

(** ** The local variables of one run *)

Lemma _do_iter_locals_fields (self : trainer) (images labels : loc) (s : state)
      (dx dy : device) (x0 : tensor) (y0 : list Z) :
  nth_error (memory s) images = Some (mk_cell dx (Images x0)) ->
  nth_error (memory s) labels = Some (mk_cell dy (Labels y0)) ->
  0 <= eps self ->
  exists v s' f,
    _do_iter_locals self (images, labels) s = Some (v, s')
    /\ f = joint_loss (length (data x0)) (cat x0 x0) (y0 ++ y0) (params s)
    /\ loss v = f (data (delta1 v)) (data (delta2 v))
    /\ X v = x0
    /\ Y v = y0
    /\ delta1 v
       = set_requires_grad
           (fst (sample (- eps self) (eps self) (empty_like x0) (generator s)))
    /\ delta2 v
       = set_requires_grad
           (fst (sample (- eps self) (eps self) (empty_like x0)
                        (snd (sample (- eps self) (eps self) (empty_like x0)
                                     (generator s)))))
    /\ same_shape (data x0) (data (delta1 v))
    /\ data (grad1 v) = fst (autograd_grad f (data (delta1 v)) (data (delta2 v)))
    /\ data (grad2 v) = snd (autograd_grad f (data (delta1 v)) (data (delta2 v)))
    /\ data (X_adv v)
       = zip4 (fun xi ai => clamp 0 1 (xi + clamp (- eps self) (eps self) (ai - xi)))
              (data x0)
              (zip4 (fun ni gi => ni + alpha self * sign gi)
                    (zip4 (fun xi di => clamp 0 1 (xi + di)) (data x0) (data (delta1 v)))
                    (data (grad1 v)))
    /\ ga v = align (data (grad1 v)) (data (grad2 v))
    /\ generator s' = advance (2 * numel (data x0)) (generator s).
Proof.
  intros Hx Hy He.
  destruct (_do_iter_locals_run self images labels s dx dy x0 y0 Hx Hy He)
    as [e Hrun]. cbv zeta in Hrun.
  destruct (perturbations self x0 (generator s)) as (S1 & _ & _ & Hg).
  cbv zeta in S1, Hg.
  rewrite Hrun. unfold lines_62_96.
  destruct (optimizer_step _ _ _ _) as [p' b'].
  eexists _, _, _. split; [reflexivity|]. split; [reflexivity|].
  simpl X. simpl Y. simpl delta1. simpl delta2. simpl grad1. simpl grad2.
  simpl ga. simpl X_adv. simpl generator. simpl loss.
  repeat split; try assumption.
  rewrite fast_adv_data. now rewrite X_new_first_half.
Qed.

(** ** The returned triple and the final update (lines 87-96) *)

Lemma _do_iter_of_locals (self : trainer) (td : loc * loc) (s : state)
      (v : locals) (s' : state) :
  _do_iter_locals self td s = Some (v, s') ->
  _do_iter self td s = Some ((cost v, ce_loss v, gradalign_loss (ga v)), s').
Proof. intros H. unfold _do_iter. now rewrite H. Qed.

(** The returned triple, as the code computes it.  The step returns the
    triple (cost, ce_loss, gradalign_loss) in this order; [ce_loss] is the
    float [CrossEntropyLoss(model(X_adv), Y)] for the labels [Y] of the batch
    (not the doubled ones) and the parameters before the update; [cost] is
    the float [ce_loss + grad_align_cos_lambda * gradalign_loss]; the third
    component is the float [1 - cos.mean()] when some sample is kept; when
    none is, line 82 leaves the int64 constant of [torch.tensor([0])] in
    its place. *)
Theorem step_output_triple
        (self : trainer) (images labels : loc) (s : state)
        (dx dy : device) (x0 : tensor) (y0 : list Z) :
  nth_error (memory s) images = Some (mk_cell dx (Images x0)) ->
  nth_error (memory s) labels = Some (mk_cell dy (Labels y0)) ->
  0 <= eps self ->
  exists v s',
    _do_iter_locals self (images, labels) s = Some (v, s')
    /\ _do_iter self (images, labels) s
       = Some ((cost v, ce_loss v, gradalign_loss (ga v)), s')
    /\ ce_loss v
       = PyFloat (CrossEntropyLoss (model (params s) (data (X_adv v))) y0)
    /\ cost v
       = PyFloat (value (ce_loss v)
                  + grad_align_cos_lambda self * value (gradalign_loss (ga v)))
    /\ ga v = align (data (grad1 v)) (data (grad2 v))
    /\ (cos (ga v) <> [] ->
        gradalign_loss (ga v) = PyFloat (1 - mean (cos (ga v))))
    /\ (cos (ga v) = [] -> gradalign_loss (ga v) = PyInt 0).
Proof.
  intros Hx Hy He.
  destruct (_do_iter_locals_run self images labels s dx dy x0 y0 Hx Hy He)
    as [e Hrun]. cbv zeta in Hrun.
  pose proof (_do_iter_of_locals self (images, labels) s) as Hret.
  rewrite Hrun in Hret |- *. revert Hret. unfold lines_62_96.
  destruct (optimizer_step _ _ _ _) as [p' b']. intros Hret.
  eexists _, _. split; [reflexivity|]. split; [now apply Hret|].
  simpl ce_loss. simpl cost. simpl ga. simpl grad1. simpl grad2. simpl X_adv.
  repeat split.
  - intros Hc. unfold align in *. simpl in *.
    destruct (map sum123 _) as [|c0 c]; [contradiction | reflexivity].
  - intros Hc. unfold align in *. simpl in *. now rewrite Hc.
Qed.

(** C6.  With [grad_align_cos_lambda = 0] the returned cost is the returned
    ce_loss. *)
Theorem lambda_zero_cost_is_ce_loss
        (self : trainer) (images labels : loc) (s : state)
        (dx dy : device) (x0 : tensor) (y0 : list Z) :
  nth_error (memory s) images = Some (mk_cell dx (Images x0)) ->
  nth_error (memory s) labels = Some (mk_cell dy (Labels y0)) ->
  0 <= eps self ->
  grad_align_cos_lambda self = 0 ->
  exists c ce g s',
    _do_iter self (images, labels) s = Some ((c, ce, g), s') /\ c = ce.
Proof.
  intros Hx Hy He Hl.
  destruct (_do_iter_locals_run self images labels s dx dy x0 y0 Hx Hy He)
    as [e Hrun]. cbv zeta in Hrun.
  pose proof (_do_iter_of_locals self (images, labels) s) as Hret.
  rewrite Hrun in Hret. revert Hret. unfold lines_62_96.
  destruct (optimizer_step _ _ _ _) as [p' b']. intros Hret.
  eexists _, _, _, _. split; [now apply Hret|].
  simpl. f_equal. rewrite Hl. ring.
Qed.

(** C9, as the code has it.  One step leaves every tensor the memory held
    as it was (the caller's images and labels among them; the step only
    allocates), and leaves the optimizer's hyperparameters and the scheduler
    untouched.  It changes the parameters' gradients (cleared, then one
    backward pass of the cost), the parameters and the optimizer's buffers
    (one optimizer step from the values before the call), and also the
    random generator, which is left after the [2 * numel X] draws of the two
    perturbations. *)
Theorem step_frame
        (self : trainer) (images labels : loc) (s : state)
        (dx dy : device) (x0 : tensor) (y0 : list Z) :
  nth_error (memory s) images = Some (mk_cell dx (Images x0)) ->
  nth_error (memory s) labels = Some (mk_cell dy (Labels y0)) ->
  0 <= eps self ->
  exists out s' e cost_of,
    _do_iter self (images, labels) s = Some (out, s')
    /\ memory s' = memory s ++ e
    /\ (forall l c, nth_error (memory s) l = Some c -> nth_error (memory s') l = Some c)
    /\ opt_hyper s' = opt_hyper s
    /\ scheduler s' = scheduler s
    /\ generator s' = advance (2 * numel (data x0)) (generator s)
    /\ param_grad s' = backward cost_of (params s) (zero_grad (param_grad s))
    /\ cost_of (params s) = value (fst (fst out))
    /\ (params s', opt_buffers s')
       = optimizer_step (opt_hyper s) (opt_buffers s) (params s) (param_grad s').
Proof.
  intros Hx Hy He.
  destruct (_do_iter_locals_run self images labels s dx dy x0 y0 Hx Hy He)
    as [e Hrun]. cbv zeta in Hrun.
  destruct (perturbations self x0 (generator s)) as (_ & _ & _ & Hg).
  cbv zeta in Hg.
  pose proof (_do_iter_of_locals self (images, labels) s) as Hret.
  rewrite Hrun in Hret. revert Hret. unfold lines_62_96.
  destruct (optimizer_step _ _ _ _) as [p' b'] eqn:Eopt. intros Hret.
  eexists _, _, e, _. split; [now apply Hret|].
  simpl. repeat split; try reflexivity.
  - intros l c Hl. now apply nth_error_app_some.
  - exact Hg.
  - symmetry. exact Eopt.
Qed.

(** The cost handed to [backward], as a function of the parameters: the
    cross-entropy on the fixed tensor [X_adv] plus the weighted alignment
    penalty of the two gradients of the joint loss taken at those parameters
    (the gradients were created with their graph; [X_adv] was detached). *)
Lemma backward_cost
      (self : trainer) (images labels : loc) (s : state)
      (dx dy : device) (x0 : tensor) (y0 : list Z) :
  nth_error (memory s) images = Some (mk_cell dx (Images x0)) ->
  nth_error (memory s) labels = Some (mk_cell dy (Labels y0)) ->
  0 <= eps self ->
  exists v s',
    _do_iter_locals self (images, labels) s = Some (v, s')
    /\ requires_grad (grad1 v) = true
    /\ requires_grad (grad2 v) = true
    /\ param_grad s'
       = backward
           (fun p =>
              let g := autograd_grad
                         (joint_loss (length (data x0)) (cat x0 x0) (y0 ++ y0) p)
                         (data (delta1 v)) (data (delta2 v)) in
              CrossEntropyLoss (model p (data (X_adv v))) y0
              + grad_align_cos_lambda self
                * value (gradalign_loss (align (fst g) (snd g))))
           (params s) (zero_grad (param_grad s)).
Proof.
  intros Hx Hy He.
  destruct (_do_iter_locals_run self images labels s dx dy x0 y0 Hx Hy He)
    as [e Hrun]. cbv zeta in Hrun.
  rewrite Hrun. unfold lines_62_96.
  destruct (optimizer_step _ _ _ _) as [p' b'].
  eexists _, _. split; [reflexivity|]. simpl. auto.
Qed.

(** C10.  Two runs of the step on batches with the same content, from
    states with the same generator state and the same parameters, wherever
    the tensors lie in memory and whatever else the states hold, compute the
    same local variables (the perturbations and the gradients among them),
    return the same triple and leave the generator in the same state; when
    the two states also agree on the parameters' gradients and on the
    optimizer, the runs leave the same parameters, gradients and buffers. *)
Theorem step_deterministic
        (self : trainer) (x0 : tensor) (y0 : list Z)
        (images1 labels1 : loc) (s1 : state) (dx1 dy1 : device)
        (images2 labels2 : loc) (s2 : state) (dx2 dy2 : device) :
  nth_error (memory s1) images1 = Some (mk_cell dx1 (Images x0)) ->
  nth_error (memory s1) labels1 = Some (mk_cell dy1 (Labels y0)) ->
  nth_error (memory s2) images2 = Some (mk_cell dx2 (Images x0)) ->
  nth_error (memory s2) labels2 = Some (mk_cell dy2 (Labels y0)) ->
  0 <= eps self ->
  generator s1 = generator s2 ->
  params s1 = params s2 ->
  exists v out s1' s2',
    _do_iter_locals self (images1, labels1) s1 = Some (v, s1')
    /\ _do_iter_locals self (images2, labels2) s2 = Some (v, s2')
    /\ _do_iter self (images1, labels1) s1 = Some (out, s1')
    /\ _do_iter self (images2, labels2) s2 = Some (out, s2')
    /\ generator s1' = generator s2'
    /\ (param_grad s1 = param_grad s2 -> opt_buffers s1 = opt_buffers s2 ->
        opt_hyper s1 = opt_hyper s2 ->
        params s1' = params s2' /\ param_grad s1' = param_grad s2'
        /\ opt_buffers s1' = opt_buffers s2').
Proof.
  intros Hx1 Hy1 Hx2 Hy2 He Hg Hp.
  destruct (_do_iter_locals_run self images1 labels1 s1 dx1 dy1 x0 y0 Hx1 Hy1 He)
    as [e1 Hrun1].
  destruct (_do_iter_locals_run self images2 labels2 s2 dx2 dy2 x0 y0 Hx2 Hy2 He)
    as [e2 Hrun2].
  cbv zeta in Hrun1, Hrun2. rewrite <- Hg in Hrun2.
  pose proof (_do_iter_of_locals self (images1, labels1) s1) as Hret1.
  pose proof (_do_iter_of_locals self (images2, labels2) s2) as Hret2.
  rewrite Hrun1 in Hret1 |- *. rewrite Hrun2 in Hret2 |- *.
  revert Hret1 Hret2. unfold lines_62_96. rewrite <- Hp.
  destruct (optimizer_step (opt_hyper s1) _ _ _) as [p1 b1] eqn:E1.
  destruct (optimizer_step (opt_hyper s2) _ _ _) as [p2 b2] eqn:E2.
  intros Hret1 Hret2.
  eexists _, _, _, _.
  split; [reflexivity|]. split; [reflexivity|].
  split; [now apply Hret1|]. split; [now apply Hret2|].
  simpl. split; [reflexivity|].
  intros Hgr Hb Hh. rewrite <- Hgr, <- Hb, <- Hh in E2.
  rewrite E1 in E2. inversion E2; subst. rewrite <- Hgr. auto.
Qed.

(** * Further properties of the step *)

Lemma map2_map_l {A A' B C : Type} (f : A -> B -> C) (h : A' -> A) l1 l2 :
  map2 f (map h l1) l2 = map2 (fun a b => f (h a) b) l1 l2.
Proof.
  revert l2; induction l1 as [|a l1 IH]; intros [|b l2]; simpl; try easy.
  now rewrite IH.
Qed.

Lemma zip3_map3 (f : R -> R -> R) (h k : R -> R) (a b : t3) :
  zip3 f (map3 h a) (map3 k b) = zip3 (fun x y => f (h x) (k y)) a b.
Proof.
  unfold zip3, map3.
  rewrite map2_map_l, map2_map_r. apply map2_ext; intros c c'.
  rewrite map2_map_l, map2_map_r. apply map2_ext; intros r r'.
  now rewrite map2_map_l, map2_map_r.
Qed.

(** ** Swapped gradients *)

Lemma map2_swap {A B C : Type} (f : A -> B -> C) (l : list A) (m : list B) :
  map2 f l m = map2 (fun y x => f x y) m l.
Proof.
  revert m; induction l as [|x l IH]; intros [|y m]; simpl; try easy.
  now rewrite IH.
Qed.

Lemma cosine_similarity_sym (a b : t3) :
  cosine_similarity a b = cosine_similarity b a.
Proof.
  unfold cosine_similarity. rewrite !zip3_map3. f_equal.
  unfold zip3. rewrite map2_swap. apply map2_ext; intros c c'.
  rewrite map2_swap. apply map2_ext; intros r r'.
  rewrite map2_swap. apply map2_ext; intros x y. ring.
Qed.

Lemma kept_pairs_swap (g1 g2 : t4) :
  kept_pairs g2 g1 = map (fun ab => (snd ab, fst ab)) (kept_pairs g1 g2).
Proof.
  unfold kept_pairs. revert g2; induction g1 as [|a g1 IH]; intros [|b g2];
    simpl; try reflexivity.
  rewrite IH, andb_comm.
  now destruct (nonzero (l2_norm a) && nonzero (l2_norm b)).
Qed.

(** X7.  The alignment term is symmetric in the two gradients. *)
Theorem align_symmetric (g1 g2 : t4) :
  cos (align g2 g1) = cos (align g1 g2)
  /\ gradalign_loss (align g2 g1) = gradalign_loss (align g1 g2).
Proof.
  destruct (align_kept g2 g1) as (_ & _ & _ & _ & Kc & Kl).
  destruct (align_kept g1 g2) as (_ & _ & _ & _ & Kc' & Kl').
  cbv zeta in *.
  assert (E : map (fun ab => cosine_similarity (fst ab) (snd ab)) (kept_pairs g2 g1)
              = map (fun ab => cosine_similarity (fst ab) (snd ab)) (kept_pairs g1 g2)).
  { rewrite kept_pairs_swap, map_map. apply map_ext. intros ab. simpl.
    apply cosine_similarity_sym. }
  split.
  - now rewrite Kc, Kc', E.
  - rewrite Kl, Kl', E. now rewrite kept_pairs_swap, length_map.
Qed.

(** ** The doubled batch and the adversarial example, entry by entry *)

Lemma Forall2_eq_r {A : Type} (l m : list A) :
  Forall2 (fun x v => v = x) l m -> m = l.
Proof. intros H; induction H; [reflexivity | now subst]. Qed.

Lemma Rel4_eq (a b : t4) : Rel4 (fun x v => v = x) a b -> b = a.
Proof.
  unfold Rel4, Rel3. intros H. apply Forall2_eq_r.
  eapply Forall2_impl; [|exact H]. intros s s' Hs. apply Forall2_eq_r.
  eapply Forall2_impl; [|exact Hs]. intros c c' Hc. apply Forall2_eq_r.
  eapply Forall2_impl; [|exact Hc]. intros r r' Hr. now apply Forall2_eq_r.
Qed.

Lemma Forall2_and_r {A B : Type} (Q : A -> B -> Prop) (P : B -> Prop) l m :
  Forall2 Q l m -> Forall P m -> Forall2 (fun x y => Q x y /\ P y) l m.
Proof.
  intros H; induction H; intros HP; inversion HP; subst; constructor; auto.
Qed.

Lemma Rel4_and_r (Q : R -> R -> Prop) (P : R -> Prop) (a b : t4) :
  Rel4 Q a b -> All4 P b -> Rel4 (fun x y => Q x y /\ P y) a b.
Proof.
  unfold Rel4, Rel3, All4, All3. intros H HP.
  eapply Forall2_impl; [|exact (Forall2_and_r _ _ _ _ H HP)].
  intros s s' [Hs Ps].
  eapply Forall2_impl; [|exact (Forall2_and_r _ _ _ _ Hs Ps)].
  intros c c' [Hc Pc].
  eapply Forall2_impl; [|exact (Forall2_and_r _ _ _ _ Hc Pc)].
  intros r r' [Hr Pr]. exact (Forall2_and_r _ _ _ _ Hr Pr).
Qed.

(** Sampling between equal bounds gives the bound. *)
Lemma sample_degenerate (c : R) (t : tensor) (g : Rng) :
  All4 (fun d => d = c) (data (fst (sample c c t g))).
Proof.
  unfold sample.
  assert (Hs : Rel4 (fun _ d => d = c) (data t)
                 (fst (fill (fill (fill (fill (uniform_entry c c)))) (data t) g))).
  { unfold Rel4, Rel3.
    apply fill_Forall2; intros s g1. apply fill_Forall2; intros ch g2.
    apply fill_Forall2; intros r g3. apply fill_Forall2; intros x g4.
    unfold uniform_entry. destruct (next_uniform g4) as [u g5]; simpl. ring. }
  destruct (fill (fill (fill (fill (uniform_entry c c)))) (data t) g) as [d g'].
  simpl in *. eapply Rel4_All4_r; [|exact Hs]. auto.
Qed.

(** The local variables of one run, the doubled batch included. *)
Lemma _do_iter_locals_batch (self : trainer) (images labels : loc) (s : state)
      (dx dy : device) (x0 : tensor) (y0 : list Z) :
  nth_error (memory s) images = Some (mk_cell dx (Images x0)) ->
  nth_error (memory s) labels = Some (mk_cell dy (Labels y0)) ->
  0 <= eps self ->
  exists v s',
    _do_iter_locals self (images, labels) s = Some (v, s')
    /\ X v = x0
    /\ Y v = y0
    /\ Y_new v = (y0 ++ y0)%list
    /\ delta1 v
       = set_requires_grad
           (fst (sample (- eps self) (eps self) (empty_like x0) (generator s)))
    /\ delta2 v
       = set_requires_grad
           (fst (sample (- eps self) (eps self) (empty_like x0)
                        (snd (sample (- eps self) (eps self) (empty_like x0)
                                     (generator s)))))
    /\ same_shape (data x0) (data (delta1 v))
    /\ same_shape (data x0) (data (delta2 v))
    /\ data (X_new v)
       = zip4 (fun xi di => clamp 0 1 (xi + di)) (data x0) (data (delta1 v))
         ++ zip4 (fun xi di => clamp 0 1 (xi + di)) (data x0) (data (delta2 v))
    /\ data (grad1 v)
       = fst (autograd_grad
                (joint_loss (length (data x0)) (cat x0 x0) (y0 ++ y0) (params s))
                (data (delta1 v)) (data (delta2 v)))
    /\ data (grad2 v)
       = snd (autograd_grad
                (joint_loss (length (data x0)) (cat x0 x0) (y0 ++ y0) (params s))
                (data (delta1 v)) (data (delta2 v)))
    /\ data (X_adv v)
       = zip4 (fun xi ai => clamp 0 1 (xi + clamp (- eps self) (eps self) (ai - xi)))
              (data x0)
              (zip4 (fun ni gi => ni + alpha self * sign gi)
                    (zip4 (fun xi di => clamp 0 1 (xi + di)) (data x0) (data (delta1 v)))
                    (data (grad1 v)))
    /\ ga v = align (data (grad1 v)) (data (grad2 v)).
Proof.
  intros Hx Hy He.
  destruct (_do_iter_locals_run self images labels s dx dy x0 y0 Hx Hy He)
    as [e Hrun]. cbv zeta in Hrun.
  destruct (perturbations self x0 (generator s)) as (S1 & S2 & _ & _).
  cbv zeta in S1, S2.
  rewrite Hrun. unfold lines_62_96.
  destruct (optimizer_step _ _ _ _) as [p' b'].
  eexists _, _. split; [reflexivity|].
  cbn [X Y Y_new delta1 delta2 X_new grad1 grad2 ga X_adv].
  repeat split; try assumption.
  - change (data (tclamp 0 1 ?t)) with (map4 (clamp 0 1) (data t)).
    rewrite doubled_batch_data by exact (Rel4_length _ _ _ S1).
    unfold map4 at 1. rewrite map_app. fold (map4 (clamp 0 1)).
    now rewrite !map4_zip4.
  - rewrite fast_adv_data. now rewrite X_new_first_half.
Qed.

Lemma ball_entry (e x d : R) :
  0 <= e -> 0 <= x <= 1 -> - e <= d <= e ->
  Rmax 0 (x - e) <= clamp 0 1 (x + d) <= Rmin 1 (x + e)
  /\ - e <= clamp 0 1 (x + d) - x <= e
  /\ 0 <= clamp 0 1 (x + d) <= 1.
Proof.
  intros He Hx Hd. unfold clamp, Rmax.
  destruct (Rle_dec (x + d) 0); destruct (Rle_dec 0 (x - e)); unfold Rmin;
    repeat match goal with |- context [Rle_dec ?u ?v] => destruct (Rle_dec u v) end;
    lra.
Qed.

Lemma perturbed_in_ball (e : R) (x d : t4) :
  0 <= e ->
  All4 (fun xi => 0 <= xi <= 1) x ->
  same_shape x d ->
  All4 (fun di => - e <= di <= e) d ->
  Rel4 (fun xi ni => Rmax 0 (xi - e) <= ni <= Rmin 1 (xi + e)
                     /\ - e <= ni - xi <= e /\ 0 <= ni <= 1)
       x (zip4 (fun xi di => clamp 0 1 (xi + di)) x d).
Proof.
  intros He H01 Hs Hd.
  apply Rel4_zip4 with (Q1 := fun xi ui => xi = ui /\ 0 <= xi <= 1)
                       (Q2 := fun _ di => True /\ - e <= di <= e).
  - intros xi ui di [<- Hxi] [_ Hdi]. now apply ball_entry.
  - apply Rel4_diag with (Q := fun xi => 0 <= xi <= 1); auto.
  - now apply Rel4_and_r.
Qed.

(** X8.  For a batch with entries in [0, 1], [0 <= eps] and a generator
    whose draws lie in [0, 1): the tensor given to the network at line 64
    is two blocks, each shaped like [X], whose entries lie in [0, 1] and
    between [max(0, X - eps)] and [min(1, X + eps)]; the labels given to
    the loss are the labels of the batch twice, so that, when [X] and [Y]
    have the same length, sample [i] of each block carries the label
    [Y[i]]. *)
Theorem doubled_batch_within_eps_ball
        (self : trainer) (images labels : loc) (s : state)
        (dx dy : device) (x0 : tensor) (y0 : list Z) :
  (forall g, 0 <= fst (next_uniform g) < 1) ->
  nth_error (memory s) images = Some (mk_cell dx (Images x0)) ->
  nth_error (memory s) labels = Some (mk_cell dy (Labels y0)) ->
  0 <= eps self ->
  All4 (fun xi => 0 <= xi <= 1) (data x0) ->
  exists v s' a b,
    _do_iter_locals self (images, labels) s = Some (v, s')
    /\ data (X_new v) = a ++ b
    /\ Rel4 (fun xi ni => Rmax 0 (xi - eps self) <= ni <= Rmin 1 (xi + eps self))
            (data x0) a
    /\ Rel4 (fun xi ni => Rmax 0 (xi - eps self) <= ni <= Rmin 1 (xi + eps self))
            (data x0) b
    /\ All4 (fun ni => 0 <= ni <= 1) (data (X_new v))
    /\ Y_new v = (y0 ++ y0)%list
    /\ (length (data x0) = length y0 ->
        length (data (X_new v)) = length (Y_new v)
        /\ forall i, (i < length y0)%nat ->
                     nth_error (Y_new v) i = nth_error y0 i
                     /\ nth_error (Y_new v) (length a + i) = nth_error y0 i).
Proof.
  intros Hu Hx Hy He H01.
  destruct (_do_iter_locals_batch self images labels s dx dy x0 y0 Hx Hy He)
    as (v & s' & Hrun & _ & _ & HYn & Hd1 & Hd2 & S1 & S2 & HXn & _).
  pose proof (sample_range (- eps self) (eps self) (empty_like x0) (generator s) Hu)
    as R1.
  pose proof (sample_range (- eps self) (eps self) (empty_like x0)
                (snd (sample (- eps self) (eps self) (empty_like x0) (generator s))) Hu)
    as R2.
  assert (D1 : All4 (fun d => - eps self <= d <= eps self) (data (delta1 v))).
  { rewrite Hd1. apply R1. lra. }
  assert (D2 : All4 (fun d => - eps self <= d <= eps self) (data (delta2 v))).
  { rewrite Hd2. apply R2. lra. }
  pose proof (perturbed_in_ball _ _ _ He H01 S1 D1) as B1.
  pose proof (perturbed_in_ball _ _ _ He H01 S2 D2) as B2.
  exists v, s', (zip4 (fun xi di => clamp 0 1 (xi + di)) (data x0) (data (delta1 v))),
    (zip4 (fun xi di => clamp 0 1 (xi + di)) (data x0) (data (delta2 v))).
  split; [exact Hrun|]. split; [exact HXn|].
  split; [eapply Rel4_impl; [|exact B1]; cbv beta; tauto|].
  split; [eapply Rel4_impl; [|exact B2]; cbv beta; tauto|].
  split.
  { rewrite HXn. apply Forall_app. split.
    - eapply Rel4_All4_r; [|exact B1]. cbv beta. tauto.
    - eapply Rel4_All4_r; [|exact B2]. cbv beta. tauto. }
  split; [exact HYn|].
  intros Hl. apply Rel4_length in B1, B2. split.
  - rewrite HXn, HYn, !length_app. lia.
  - intros i Hi. rewrite HYn. split.
    + apply nth_error_app1. exact Hi.
    + rewrite nth_error_app2 by lia. f_equal. lia.
Qed.

(** X9.  With [eps = 0] the two perturbations are zero, the network sees
    the batch twice at line 64, and the adversarial example is the batch
    itself: for a batch with entries in [0, 1], [X_adv = X]. *)
Theorem eps_zero_trains_on_clean_batch
        (self : trainer) (images labels : loc) (s : state)
        (dx dy : device) (x0 : tensor) (y0 : list Z) :
  (forall f a b, same_shape a (fst (autograd_grad f a b))) ->
  nth_error (memory s) images = Some (mk_cell dx (Images x0)) ->
  nth_error (memory s) labels = Some (mk_cell dy (Labels y0)) ->
  eps self = 0 ->
  All4 (fun xi => 0 <= xi <= 1) (data x0) ->
  exists v s',
    _do_iter_locals self (images, labels) s = Some (v, s')
    /\ All4 (fun d => d = 0) (data (delta1 v))
    /\ All4 (fun d => d = 0) (data (delta2 v))
    /\ data (X_new v) = data x0 ++ data x0
    /\ data (X_adv v) = data x0.
Proof.
  intros Hg Hx Hy He H01.
  assert (He' : 0 <= eps self) by lra.
  destruct (_do_iter_locals_batch self images labels s dx dy x0 y0 Hx Hy He')
    as (v & s' & Hrun & _ & _ & _ & Hd1 & Hd2 & S1 & S2 & HXn & Hg1 & _ & Hadv & _).
  assert (D1 : All4 (fun d => d = 0) (data (delta1 v))).
  { rewrite Hd1, He, Ropp_0. apply sample_degenerate. }
  assert (D2 : All4 (fun d => d = 0) (data (delta2 v))).
  { rewrite Hd2, He, Ropp_0. apply sample_degenerate. }
  assert (P : forall d, same_shape (data x0) d -> All4 (fun di => di = 0) d ->
                        zip4 (fun xi di => clamp 0 1 (xi + di)) (data x0) d = data x0).
  { intros d Sd Dd. apply Rel4_eq.
    apply Rel4_zip4 with (Q1 := fun xi ui => xi = ui /\ 0 <= xi <= 1)
                         (Q2 := fun _ di => True /\ di = 0).
    - intros xi ui di [<- Hxi] [_ ->]. rewrite Rplus_0_r. apply clamp_id. lra.
    - apply Rel4_diag with (Q := fun xi => 0 <= xi <= 1); auto.
    - now apply Rel4_and_r. }
  exists v, s'. split; [exact Hrun|]. split; [exact D1|]. split; [exact D2|].
  split; [now rewrite HXn, !P|].
  rewrite Hadv, (P _ S1 D1). apply Rel4_eq.
  apply Rel4_zip4 with (Q1 := fun xi ui => xi = ui /\ 0 <= xi <= 1)
                       (Q2 := fun _ _ => True).
  - intros xi ui ai [<- Hxi] _. rewrite He.
    pose proof (clamp_bounds (- 0) 0 (ai - xi)) as Hb.
    replace (clamp (- 0) 0 (ai - xi)) with 0 by lra.
    rewrite Rplus_0_r. apply clamp_id. lra.
  - apply Rel4_diag with (Q := fun xi => 0 <= xi <= 1); auto.
  - apply Rel4_zip4 with (Q1 := fun _ _ => True) (Q2 := fun _ _ => True); auto.
    + apply same_shape_refl.
    + rewrite Hg1. eapply same_shape_trans; [exact S1|]. apply Hg.
Qed.

(** ** Single entries *)

(** [t[n, c, h, w]], when the index is within the tensor. *)
Definition entry (t : t4) (n c h w : nat) : option R :=
  s <- nth_error t n ;; ch <- nth_error s c ;; r <- nth_error ch h ;; nth_error r w.

Lemma nth_error_map2 {A B C : Type} (f : A -> B -> C) (l : list A) (m : list B) (i : nat) :
  nth_error (map2 f l m) i
  = match nth_error l i, nth_error m i with
    | Some x, Some y => Some (f x y)
    | _, _ => None
    end.
Proof.
  revert m i; induction l as [|x l IH]; intros [|y m] [|i]; simpl; try reflexivity.
  - now destruct (nth_error l i).
  - apply IH.
Qed.

Lemma entry_zip4 (f : R -> R -> R) (a b : t4) (n c h w : nat) :
  entry (zip4 f a b) n c h w
  = match entry a n c h w, entry b n c h w with
    | Some x, Some y => Some (f x y)
    | _, _ => None
    end.
Proof.
  unfold entry, zip4, zip3.
  rewrite nth_error_map2.
  destruct (nth_error a n) as [s|], (nth_error b n) as [s'|]; try reflexivity.
  - rewrite nth_error_map2.
    destruct (nth_error s c) as [ch|], (nth_error s' c) as [ch'|]; try reflexivity.
    + rewrite nth_error_map2.
      destruct (nth_error ch h) as [r|], (nth_error ch' h) as [r'|]; try reflexivity.
      * apply nth_error_map2.
      * now destruct (nth_error r w).
    + destruct (nth_error ch h) as [r|]; [|reflexivity]. now destruct (nth_error r w).
  - destruct (nth_error s c) as [ch|]; [|reflexivity].
    destruct (nth_error ch h) as [r|]; [|reflexivity]. now destruct (nth_error r w).
Qed.

Lemma Forall2_nth_error {A B : Type} (Q : A -> B -> Prop) l m i x :
  Forall2 Q l m -> nth_error l i = Some x ->
  exists y, nth_error m i = Some y /\ Q x y.
Proof.
  intros H; revert i; induction H as [|a b l m Hab _ IH]; intros [|i] Hi;
    simpl in *; try discriminate.
  - inversion Hi; subst. eauto.
  - now apply IH.
Qed.

Lemma Rel4_entry (Q : R -> R -> Prop) (a b : t4) (n c h w : nat) (x : R) :
  Rel4 Q a b -> entry a n c h w = Some x ->
  exists y, entry b n c h w = Some y /\ Q x y.
Proof.
  unfold Rel4, Rel3, entry. intros H Hx.
  destruct (nth_error a n) as [s|] eqn:E1; [|discriminate].
  destruct (Forall2_nth_error _ _ _ _ _ H E1) as (s' & -> & Hs).
  destruct (nth_error s c) as [ch|] eqn:E2; [|discriminate].
  destruct (Forall2_nth_error _ _ _ _ _ Hs E2) as (ch' & -> & Hc).
  destruct (nth_error ch h) as [r|] eqn:E3; [|discriminate].
  destruct (Forall2_nth_error _ _ _ _ _ Hc E3) as (r' & -> & Hr).
  exact (Forall2_nth_error _ _ _ _ _ Hr Hx).
Qed.

Lemma sign_cases (g : R) :
  (g = 0 /\ sign g = 0) \/ (0 < g /\ sign g = 1) \/ (g < 0 /\ sign g = -1).
Proof.
  unfold sign. destruct (Rlt_dec 0 g); [tauto|].
  destruct (Rlt_dec g 0); [tauto|]. left. split; [lra | reflexivity].
Qed.

(** One entry of [X_adv] in terms of the entries of [X], [delta1] and [grad1]
    at the same index. *)
Lemma X_adv_entry (self : trainer) (images labels : loc) (s : state)
      (dx dy : device) (x0 : tensor) (y0 : list Z) :
  (forall g, 0 <= fst (next_uniform g) < 1) ->
  nth_error (memory s) images = Some (mk_cell dx (Images x0)) ->
  nth_error (memory s) labels = Some (mk_cell dy (Labels y0)) ->
  0 <= eps self ->
  exists v s',
    _do_iter_locals self (images, labels) s = Some (v, s')
    /\ forall n c h w x g,
        entry (data x0) n c h w = Some x ->
        entry (data (grad1 v)) n c h w = Some g ->
        exists d,
          entry (data (delta1 v)) n c h w = Some d
          /\ - eps self <= d <= eps self
          /\ entry (data (X_new v)) n c h w = Some (clamp 0 1 (x + d))
          /\ entry (data (X_adv v)) n c h w
             = Some (clamp 0 1
                       (x + clamp (- eps self) (eps self)
                                  (clamp 0 1 (x + d) + alpha self * sign g - x))).
Proof.
  intros Hu Hx Hy He.
  destruct (_do_iter_locals_batch self images labels s dx dy x0 y0 Hx Hy He)
    as (v & s' & Hrun & _ & _ & _ & Hd1 & _ & S1 & _ & HXn & _ & _ & Hadv & _).
  pose proof (sample_range (- eps self) (eps self) (empty_like x0) (generator s) Hu)
    as R1.
  assert (D1 : All4 (fun d => - eps self <= d <= eps self) (data (delta1 v))).
  { rewrite Hd1. apply R1. lra. }
  exists v, s'. split; [exact Hrun|].
  intros n c h w x g Ex Eg.
  destruct (Rel4_entry _ _ _ n c h w x (Rel4_and_r _ _ _ _ S1 D1) Ex)
    as (d & Ed & _ & Hd).
  exists d. split; [exact Ed|]. split; [exact Hd|].
  assert (En : entry (zip4 (fun xi di => clamp 0 1 (xi + di)) (data x0)
                           (data (delta1 v))) n c h w
               = Some (clamp 0 1 (x + d))).
  { now rewrite entry_zip4, Ex, Ed. }
  split.
  - rewrite HXn. unfold entry in En |- *.
    destruct (nth_error (zip4 _ (data x0) (data (delta1 v))) n) as [sm|] eqn:E;
      [|discriminate].
    now rewrite (nth_error_app_some _ _ _ _ E).
  - rewrite Hadv, entry_zip4, Ex, entry_zip4, En, Eg. reflexivity.
Qed.

(** X12.  For a batch with entries in [0, 1]: at every index where [grad1]
    is zero, [torch.sign] gives zero and the adversarial example is the
    randomly perturbed input [X_new[:len(X)] = clamp(X + delta1, 0, 1)]. *)
Theorem zero_gradient_keeps_random_start
        (self : trainer) (images labels : loc) (s : state)
        (dx dy : device) (x0 : tensor) (y0 : list Z) :
  (forall g, 0 <= fst (next_uniform g) < 1) ->
  nth_error (memory s) images = Some (mk_cell dx (Images x0)) ->
  nth_error (memory s) labels = Some (mk_cell dy (Labels y0)) ->
  0 <= eps self ->
  All4 (fun xi => 0 <= xi <= 1) (data x0) ->
  exists v s',
    _do_iter_locals self (images, labels) s = Some (v, s')
    /\ forall n c h w x,
        entry (data x0) n c h w = Some x ->
        entry (data (grad1 v)) n c h w = Some 0 ->
        entry (data (X_adv v)) n c h w = entry (data (X_new v)) n c h w.
Proof.
  intros Hu Hx Hy He H01.
  destruct (X_adv_entry self images labels s dx dy x0 y0 Hu Hx Hy He)
    as (v & s' & Hrun & Hent).
  exists v, s'. split; [exact Hrun|].
  intros n c h w x Ex Eg.
  destruct (Hent n c h w x 0 Ex Eg) as (d & _ & Hd & -> & ->).
  destruct (Rel4_entry _ _ _ n c h w x
              (Rel4_diag (fun a b => a = b /\ 0 <= a <= 1) _ _
                         (fun a Ha => conj eq_refl Ha) H01) Ex)
    as (x' & _ & _ & Hx01).
  destruct (ball_entry (eps self) x d He Hx01 Hd) as (_ & Hn & Hn01).
  f_equal. destruct (sign_cases 0) as [[_ ->] | [[? _] | [? _]]]; try lra.
  set (nx := clamp 0 1 (x + d)) in *.
  rewrite (clamp_id (- eps self) (eps self)) by lra.
  replace (x + (nx + alpha self * 0 - x)) with nx by ring.
  apply clamp_id. exact Hn01.
Qed.

(** X10.  On a well-formed batch a negative [eps] makes the step fail:
    [uniform_(-eps, eps)] at line 55 is called with [from > to] and refuses
    its bounds, so no triple is returned. *)
Theorem step_fails_for_negative_eps
        (self : trainer) (images labels : loc) (s : state)
        (dx dy : device) (x0 : tensor) (y0 : list Z) :
  nth_error (memory s) images = Some (mk_cell dx (Images x0)) ->
  nth_error (memory s) labels = Some (mk_cell dy (Labels y0)) ->
  eps self < 0 ->
  _do_iter_locals self (images, labels) s = None
  /\ _do_iter self (images, labels) s = None.
Proof.
  intros Hx Hy He.
  assert (H : _do_iter_locals self (images, labels) s = None).
  { unfold _do_iter_locals.
    destruct (to_run (self_device self) _ _ _ _ Hx) as (lx & e1 & -> & Hx1).
    apply nth_error_app_some with (e := e1) in Hy.
    destruct (to_run (self_device self) _ _ _ _ Hy) as (ly & e2 & -> & Hy2).
    apply nth_error_app_some with (e := e2) in Hx1.
    set (m2 := (memory s ++ e1) ++ e2) in *.
    rewrite (read_images_cell _ _ _ _ Hx1). unfold alloc.
    set (c0 := mk_cell (self_device self) (Images (cat x0 x0))).
    rewrite (read_images_cell _ _ _ _ (nth_error_last m2 c0)).
    rewrite (read_labels_cell _ _ _ _ (nth_error_app_some _ [c0] _ _ Hy2)).
    rewrite (read_images_cell _ _ _ _ (nth_error_app_some _ [c0] _ _ Hx1)).
    unfold uniform_. destruct (Rlt_dec (eps self) (- eps self)); [reflexivity | lra]. }
  split; [exact H|]. unfold _do_iter. now rewrite H.
Qed.

End GradAlign.

Arguments mk_state {Params Grads OptState OptHyper Sched Rng}.
Arguments params {Params Grads OptState OptHyper Sched Rng}.
Arguments param_grad {Params Grads OptState OptHyper Sched Rng}.
Arguments opt_buffers {Params Grads OptState OptHyper Sched Rng}.
Arguments opt_hyper {Params Grads OptState OptHyper Sched Rng}.
Arguments scheduler {Params Grads OptState OptHyper Sched Rng}.
Arguments generator {Params Grads OptState OptHyper Sched Rng}.
Arguments memory {Params Grads OptState OptHyper Sched Rng}.

(** * A concrete run

    A network without parameters whose logits are [0, 0] whatever its
    input: its loss does not depend on the perturbations, so the two
    gradients of line 67 are zero.  The generator is a linear congruential
    generator modulo 16; the optimizer counts its steps. *)

Module Constant.

Definition model (_ : unit) (x : t4) : list (list R) := map (fun _ => [0; 0]) x.

(** The mean over the batch of [log(sum(exp(pre[i]))) - pre[i][y[i]]]. *)
Definition CrossEntropyLoss (pre : list (list R)) (y : list Z) : R :=
  mean (map2 (fun z c => ln (Rsum (map exp z)) - nth (Z.to_nat c) z 0) pre y).

Definition autograd_grad (_ : t4 -> t4 -> R) (d1 d2 : t4) : t4 * t4 :=
  (map4 (fun _ => 0) d1, map4 (fun _ => 0) d2).

Definition zero_grad (_ : unit) : unit := tt.
Definition backward (_ : unit -> R) (_ : unit) (_ : unit) : unit := tt.
Definition optimizer_step (lr : R) (steps : nat) (p : unit) (_ : unit) : unit * nat :=
  (p, S steps).

Definition next_uniform (z : Z) : R * Z :=
  let z' := ((5 * z + 3) mod 16)%Z in (IZR z' / 16, z').

(** eps = 0.1, alpha = 0.125, grad_align_cos_lambda = 0.2. *)
Definition self : trainer := mk_trainer CPU (1 / 10) (1 / 8) (1 / 5).
(** The same trainer with the regularizer switched off. *)
Definition self0 : trainer := mk_trainer CPU (1 / 10) (1 / 8) 0.

(** Two images of one channel, one row and two pixels, with labels 0 and 1. *)
Definition batch : tensor := mk_tensor [[[[1 / 2; 1 / 4]]]; [[[0; 1]]]] false.
Definition classes : list Z := [0%Z; 1%Z].

(** Learning rate 0.01, no step taken yet, epoch 0, seed 0; the batch at
    location 0 and its labels at location 1, on the trainer's device. *)
Definition start : state unit unit nat R nat Z :=
  mk_state tt tt 0%nat (1 / 100) 0%nat 0%Z
           [mk_cell CPU (Images batch); mk_cell CPU (Labels classes)].

(** The same seed and the same batch, held on another device at other
    locations, later in training. *)
Definition later : state unit unit nat R nat Z :=
  mk_state tt tt 7%nat (1 / 1000) 3%nat 0%Z
           [mk_cell (CUDA 0) (Labels classes); mk_cell CPU (Labels []);
            mk_cell (CUDA 0) (Images batch)].

Definition do_iter_locals :=
  _do_iter_locals unit unit nat R nat Z model CrossEntropyLoss autograd_grad
                  zero_grad backward optimizer_step next_uniform.

Definition do_iter :=
  _do_iter unit unit nat R nat Z model CrossEntropyLoss autograd_grad
           zero_grad backward optimizer_step next_uniform.

End Constant.

Ltac list_eq :=
  repeat match goal with
         | |- (_ :: _) = (_ :: _) => apply f_equal2
         end; try reflexivity.

Ltac clamp_eval :=
  repeat match goal with
         | |- context [clamp ?lo ?hi ?x] => rewrite (clamp_id lo hi x) by lra
         end.

Lemma sign_0 : sign 0 = 0.
Proof. unfold sign. destruct (Rlt_dec 0 0); [lra | reflexivity]. Qed.

Lemma Constant_next_uniform_range (g : Z) :
  0 <= fst (Constant.next_uniform g) < 1.
Proof.
  unfold Constant.next_uniform. cbv zeta. cbn [fst].
  destruct (Z.mod_pos_bound (5 * g + 3) 16) as [H0 H1]; [lia|].
  apply IZR_le in H0. apply IZR_lt in H1. lra.
Qed.

Lemma Constant_autograd_grad_shape (f : t4 -> t4 -> R) (a b : t4) :
  same_shape a (fst (Constant.autograd_grad f a b)).
Proof.
  simpl. apply Rel4_map4_r with (Q := fun _ _ => True); [auto | apply same_shape_refl].
Qed.

Lemma Constant_batch_pixels : All4 (fun xi => 0 <= xi <= 1) (data Constant.batch).
Proof. repeat constructor; lra. Qed.

(** The loss of this network does not depend on the entries of the leaves:
    the zero gradients of [Constant.autograd_grad] are its gradients. *)
Lemma Constant_joint_loss_flat (n : nat) (buf : tensor) (y : list Z) (p : unit)
      (d1 d2 e1 e2 : t4) :
  same_shape d1 e1 -> same_shape d2 e2 ->
  joint_loss unit Constant.model Constant.CrossEntropyLoss n buf y p d1 d2
  = joint_loss unit Constant.model Constant.CrossEntropyLoss n buf y p e1 e2.
Proof.
  intros H1 H2. unfold joint_loss. f_equal. unfold Constant.model.
  assert (G : forall (A : Type) (l l' : list A),
             length l = length l' ->
             map (fun _ => [0; 0]) l = map (fun _ => [0; 0]) l').
  { intros A l; induction l as [|a l IH]; intros [|a' l'] H; simpl in *; try easy.
    f_equal. apply IH. lia. }
  apply G. unfold tclamp, tmap, iadd_slice_from, iadd_slice_to; simpl.
  unfold map4, zip4. rewrite !length_map, !length_app.
  assert (L : forall (A B C : Type) (f : A -> B -> C) (l : list A) (m : list B),
             length (map2 f l m) = Nat.min (length l) (length m)).
  { intros A B C f l; induction l as [|a l IH]; intros [|b m]; simpl; auto. }
  apply Rel4_length in H1, H2.
  repeat (rewrite L || rewrite length_firstn || rewrite length_skipn
          || rewrite length_app).
  lia.
Qed.

Lemma Constant_run_fields :
  exists (v : locals) (s' : state unit unit nat R nat Z),
    Constant.do_iter_locals Constant.self (0%nat, 1%nat) Constant.start = Some (v, s')
    /\ X v = Constant.batch
    /\ data (delta1 v) = [[[[-1 / 16; -3 / 40]]]; [[[1 / 16; -1 / 20]]]]
    /\ data (grad1 v) = [[[[0; 0]]]; [[[0; 0]]]]
    /\ data (grad2 v) = [[[[0; 0]]]; [[[0; 0]]]]
    /\ data (X_adv v) = [[[[7 / 16; 7 / 40]]]; [[[1 / 16; 19 / 20]]]]
    /\ ga v = align (data (grad1 v)) (data (grad2 v))
    /\ generator s' = 8%Z.
Proof.
  destruct (_do_iter_locals_fields unit unit nat R nat Z
              Constant.model Constant.CrossEntropyLoss Constant.autograd_grad
              Constant.zero_grad Constant.backward Constant.optimizer_step
              Constant.next_uniform Constant.self 0%nat 1%nat Constant.start
              CPU CPU Constant.batch Constant.classes eq_refl eq_refl)
    as (v & s' & f & Hrun & _ & _ & HX & _ & Hd1 & Hd2 & _ & Hg1 & Hg2 & Hadv & Hga & Hgen).
  { simpl. lra. }
  exists v, s'. split; [exact Hrun|].
  rewrite Hd1, Hd2 in Hg1, Hg2. rewrite Hd1, Hg1 in Hadv.
  cbn in Hg1, Hg2, Hadv, Hd1.
  rewrite Hg1, Hg2 in Hga.
  rewrite Hd1, Hg1, Hg2, Hadv. cbn.
  rewrite !sign_0. clamp_eval.
  repeat split; try assumption; list_eq; try lra.
Qed.

Lemma l2_norm_zero_sample : l2_norm [[[0; 0]]] = 0.
Proof.
  unfold l2_norm. cbn.
  match goal with |- sqrt ?x = 0 => replace x with 0 by lra end.
  apply sqrt_0.
Qed.

(** C1 fails as stated.  On the batch of [Constant.start] the gradient is
    zero, so the specification's [X + alpha * sign(grad1)], clamped, is [X]
    itself; the code steps from [X_new[:len(X)] = clamp(X + delta1, 0, 1)]
    and returns [X + delta1]. *)
Lemma fast_adv_counterexample :
  exists (v : locals) (s' : state unit unit nat R nat Z),
    Constant.do_iter_locals Constant.self (0%nat, 1%nat) Constant.start = Some (v, s')
    /\ data (X_adv v) = [[[[7 / 16; 7 / 40]]]; [[[1 / 16; 19 / 20]]]]
    /\ data (fast_adv_spec (eps Constant.self) (alpha Constant.self) (X v) (grad1 v))
       = [[[[1 / 2; 1 / 4]]]; [[[0; 1]]]]
    /\ data (X_adv v)
       <> data (fast_adv_spec (eps Constant.self) (alpha Constant.self) (X v) (grad1 v)).
Proof.
  destruct Constant_run_fields as (v & s' & Hrun & HX & _ & Hg1 & _ & Hadv & _).
  exists v, s'. split; [exact Hrun|]. split; [exact Hadv|].
  assert (Hs : data (fast_adv_spec (eps Constant.self) (alpha Constant.self)
                       (X v) (grad1 v))
               = [[[[1 / 2; 1 / 4]]]; [[[0; 1]]]]).
  { unfold fast_adv_spec, detach, tclamp, tadd, tsub, tscale, tsign, tmap, tzip,
      dot_data. cbn [data]. rewrite HX, Hg1. cbn.
    rewrite !sign_0. clamp_eval. list_eq; lra. }
  split; [exact Hs|].
  rewrite Hadv, Hs. intros E. inversion E. lra.
Qed.

(** C5, the code at the failing input.  On the batch of [Constant.start]
    both gradients are zero and no sample is kept: the third component of
    the returned triple is the integer 0 that line 82 builds with
    [torch.tensor([0])], where the claim asks for a float, as the branch
    [1.0 - cos_aggr] of line 85 and the other two components give. *)
Lemma output_triple_counterexample :
  exists (out : scalar * scalar * scalar) (s' : state unit unit nat R nat Z),
    Constant.do_iter Constant.self (0%nat, 1%nat) Constant.start = Some (out, s')
    /\ snd out = PyInt 0
    /\ is_float (snd out) = false.
Proof.
  destruct Constant_run_fields as (v & s' & Hrun & _ & _ & Hg1 & Hg2 & _ & Hga & _).
  exists (cost v, ce_loss v, gradalign_loss (ga v)), s'.
  split; [now apply _do_iter_of_locals|].
  assert (H0 : gradalign_loss (ga v) = PyInt 0).
  { rewrite Hga, Hg1, Hg2.
    destruct (align_kept [[[[0; 0]]]; [[[0; 0]]]] [[[[0; 0]]]; [[[0; 0]]]])
      as (_ & _ & _ & _ & _ & Hl). cbv zeta in Hl. rewrite Hl.
    rewrite kept_pairs_none; [reflexivity|].
    simpl. repeat (constructor; [left; apply l2_norm_zero_sample|]). constructor. }
  simpl. rewrite H0. auto.
Qed.

(** C9 fails as stated.  The step also changes the state of the random
    generator: here it is 0 before the call and 8 after it. *)
Lemma frame_counterexample :
  exists (out : scalar * scalar * scalar) (s' : state unit unit nat R nat Z),
    Constant.do_iter Constant.self (0%nat, 1%nat) Constant.start = Some (out, s')
    /\ generator Constant.start = 0%Z
    /\ generator s' = 8%Z
    /\ generator s' <> generator Constant.start.
Proof.
  destruct Constant_run_fields as (v & s' & Hrun & _ & _ & _ & _ & _ & _ & Hgen).
  exists (cost v, ce_loss v, gradalign_loss (ga v)), s'.
  split; [now apply _do_iter_of_locals|].
  split; [reflexivity|]. split; [exact Hgen|].
  rewrite Hgen. simpl. discriminate.
Qed.

(** ** The theorems at the concrete run *)

Lemma fast_adv_from_perturbed_batch_witness :
  nth_error (memory Constant.start) 0 = Some (mk_cell CPU (Images Constant.batch))
  /\ nth_error (memory Constant.start) 1 = Some (mk_cell CPU (Labels Constant.classes))
  /\ 0 <= eps Constant.self
  /\ exists (v : locals) (s' : state unit unit nat R nat Z),
      Constant.do_iter_locals Constant.self (0%nat, 1%nat) Constant.start = Some (v, s')
      /\ X v = Constant.batch
      /\ same_shape (data Constant.batch) (data (delta1 v))
      /\ data (X_adv v)
         = zip4 (fun xi ai => clamp 0 1 (xi + clamp (- (1 / 10)) (1 / 10) (ai - xi)))
                (data Constant.batch)
                (zip4 (fun ni gi => ni + 1 / 8 * sign gi)
                      (zip4 (fun xi di => clamp 0 1 (xi + di))
                            (data Constant.batch) (data (delta1 v)))
                      (data (grad1 v)))
      /\ requires_grad (X_adv v) = false.
Proof.
  split; [reflexivity|]. split; [reflexivity|]. split; [simpl; lra|].
  apply (fast_adv_from_perturbed_batch _ _ _ _ _ _
           Constant.model Constant.CrossEntropyLoss Constant.autograd_grad
           Constant.zero_grad Constant.backward Constant.optimizer_step
           Constant.next_uniform Constant.self 0%nat 1%nat Constant.start
           CPU CPU Constant.batch Constant.classes);
    [reflexivity | reflexivity | simpl; lra].
Defined.

Lemma X_adv_in_eps_ball_and_pixel_range_witness :
  (forall f a b, same_shape a (fst (Constant.autograd_grad f a b)))
  /\ nth_error (memory Constant.start) 0 = Some (mk_cell CPU (Images Constant.batch))
  /\ nth_error (memory Constant.start) 1 = Some (mk_cell CPU (Labels Constant.classes))
  /\ 0 <= eps Constant.self
  /\ All4 (fun xi => 0 <= xi <= 1) (data Constant.batch)
  /\ exists (v : locals) (s' : state unit unit nat R nat Z),
      Constant.do_iter_locals Constant.self (0%nat, 1%nat) Constant.start = Some (v, s')
      /\ X v = Constant.batch
      /\ Rel4 (fun xi vi => Rmax 0 (xi - 1 / 10) <= vi <= Rmin 1 (xi + 1 / 10))
              (data Constant.batch) (data (X_adv v))
      /\ All4 (fun vi => 0 <= vi <= 1) (data (X_adv v)).
Proof.
  split; [exact Constant_autograd_grad_shape|].
  split; [reflexivity|]. split; [reflexivity|]. split; [simpl; lra|].
  split; [exact Constant_batch_pixels|].
  apply (X_adv_in_eps_ball_and_pixel_range _ _ _ _ _ _
           Constant.model Constant.CrossEntropyLoss Constant.autograd_grad
           Constant.zero_grad Constant.backward Constant.optimizer_step
           Constant.next_uniform Constant.self 0%nat 1%nat Constant.start
           CPU CPU Constant.batch Constant.classes);
    [exact Constant_autograd_grad_shape | reflexivity | reflexivity
     | simpl; lra | exact Constant_batch_pixels].
Defined.

Lemma lambda_zero_cost_is_ce_loss_witness :
  nth_error (memory Constant.start) 0 = Some (mk_cell CPU (Images Constant.batch))
  /\ nth_error (memory Constant.start) 1 = Some (mk_cell CPU (Labels Constant.classes))
  /\ 0 <= eps Constant.self0
  /\ grad_align_cos_lambda Constant.self0 = 0
  /\ exists (c ce g : scalar) (s' : state unit unit nat R nat Z),
      Constant.do_iter Constant.self0 (0%nat, 1%nat) Constant.start
      = Some ((c, ce, g), s')
      /\ c = ce.
Proof.
  split; [reflexivity|]. split; [reflexivity|]. split; [simpl; lra|].
  split; [reflexivity|].
  apply (lambda_zero_cost_is_ce_loss _ _ _ _ _ _
           Constant.model Constant.CrossEntropyLoss Constant.autograd_grad
           Constant.zero_grad Constant.backward Constant.optimizer_step
           Constant.next_uniform Constant.self0 0%nat 1%nat Constant.start
           CPU CPU Constant.batch Constant.classes);
    [reflexivity | reflexivity | simpl; lra | reflexivity].
Defined.

Lemma dual_perturbation_construction_witness :
  (forall g, 0 <= fst (Constant.next_uniform g) < 1)
  /\ nth_error (memory Constant.start) 0 = Some (mk_cell CPU (Images Constant.batch))
  /\ nth_error (memory Constant.start) 1 = Some (mk_cell CPU (Labels Constant.classes))
  /\ 0 <= eps Constant.self
  /\ exists (v : locals) (s' : state unit unit nat R nat Z),
      Constant.do_iter_locals Constant.self (0%nat, 1%nat) Constant.start = Some (v, s')
      /\ X v = Constant.batch
      /\ All4 (fun d => - (1 / 10) <= d <= 1 / 10) (data (delta1 v))
      /\ All4 (fun d => - (1 / 10) <= d <= 1 / 10) (data (delta2 v))
      /\ same_shape (data Constant.batch) (data (delta1 v))
      /\ same_shape (data Constant.batch) (data (delta2 v))
      /\ flatten4 (data (delta1 v)) ++ flatten4 (data (delta2 v))
         = map (fun u => u * (1 / 10 - - (1 / 10)) + - (1 / 10))
               (draws Z Constant.next_uniform 8 0%Z)
      /\ requires_grad (delta1 v) = true
      /\ requires_grad (delta2 v) = true
      /\ firstn 2 (data (X_new_sum v)) = zip4 Rplus (data Constant.batch) (data (delta1 v))
      /\ skipn 2 (data (X_new_sum v)) = zip4 Rplus (data Constant.batch) (data (delta2 v))
      /\ X_new v = tclamp 0 1 (X_new_sum v)
      /\ requires_grad (X_new v) = true.
Proof.
  split; [exact Constant_next_uniform_range|].
  split; [reflexivity|]. split; [reflexivity|]. split; [simpl; lra|].
  apply (dual_perturbation_construction _ _ _ _ _ _
           Constant.model Constant.CrossEntropyLoss Constant.autograd_grad
           Constant.zero_grad Constant.backward Constant.optimizer_step
           Constant.next_uniform Constant.self 0%nat 1%nat Constant.start
           CPU CPU Constant.batch Constant.classes);
    [exact Constant_next_uniform_range | reflexivity | reflexivity | simpl; lra].
Defined.

Lemma step_frame_witness :
  nth_error (memory Constant.start) 0 = Some (mk_cell CPU (Images Constant.batch))
  /\ nth_error (memory Constant.start) 1 = Some (mk_cell CPU (Labels Constant.classes))
  /\ 0 <= eps Constant.self
  /\ exists (out : scalar * scalar * scalar) (s' : state unit unit nat R nat Z)
            (e : list cell) (cost_of : unit -> R),
      Constant.do_iter Constant.self (0%nat, 1%nat) Constant.start = Some (out, s')
      /\ memory s' = memory Constant.start ++ e
      /\ (forall l c, nth_error (memory Constant.start) l = Some c ->
                      nth_error (memory s') l = Some c)
      /\ opt_hyper s' = 1 / 100
      /\ scheduler s' = 0%nat
      /\ generator s' = advance Z Constant.next_uniform 8 0%Z
      /\ param_grad s' = Constant.backward cost_of tt (Constant.zero_grad tt)
      /\ cost_of tt = value (fst (fst out))
      /\ (params s', opt_buffers s')
         = Constant.optimizer_step (1 / 100) 0%nat tt (param_grad s').
Proof.
  split; [reflexivity|]. split; [reflexivity|]. split; [simpl; lra|].
  apply (step_frame _ _ _ _ _ _
           Constant.model Constant.CrossEntropyLoss Constant.autograd_grad
           Constant.zero_grad Constant.backward Constant.optimizer_step
           Constant.next_uniform Constant.self 0%nat 1%nat Constant.start
           CPU CPU Constant.batch Constant.classes);
    [reflexivity | reflexivity | simpl; lra].
Defined.

Lemma step_deterministic_witness :
  nth_error (memory Constant.start) 0 = Some (mk_cell CPU (Images Constant.batch))
  /\ nth_error (memory Constant.start) 1 = Some (mk_cell CPU (Labels Constant.classes))
  /\ nth_error (memory Constant.later) 2 = Some (mk_cell (CUDA 0) (Images Constant.batch))
  /\ nth_error (memory Constant.later) 0 = Some (mk_cell (CUDA 0) (Labels Constant.classes))
  /\ 0 <= eps Constant.self
  /\ generator Constant.start = generator Constant.later
  /\ params Constant.start = params Constant.later
  /\ exists (v : locals) (out : scalar * scalar * scalar)
            (s1' s2' : state unit unit nat R nat Z),
      Constant.do_iter_locals Constant.self (0%nat, 1%nat) Constant.start = Some (v, s1')
      /\ Constant.do_iter_locals Constant.self (2%nat, 0%nat) Constant.later = Some (v, s2')
      /\ Constant.do_iter Constant.self (0%nat, 1%nat) Constant.start = Some (out, s1')
      /\ Constant.do_iter Constant.self (2%nat, 0%nat) Constant.later = Some (out, s2')
      /\ generator s1' = generator s2'.
Proof.
  split; [reflexivity|]. split; [reflexivity|]. split; [reflexivity|].
  split; [reflexivity|]. split; [simpl; lra|]. split; [reflexivity|].
  split; [reflexivity|].
  destruct (step_deterministic _ _ _ _ _ _
           Constant.model Constant.CrossEntropyLoss Constant.autograd_grad
           Constant.zero_grad Constant.backward Constant.optimizer_step
           Constant.next_uniform Constant.self Constant.batch Constant.classes
           0%nat 1%nat Constant.start CPU CPU
           2%nat 0%nat Constant.later (CUDA 0) (CUDA 0)
           eq_refl eq_refl eq_refl eq_refl)
    as (v & out & s1' & s2' & H1 & H2 & H3 & H4 & H5 & _);
    [simpl; lra | reflexivity | reflexivity |].
  exists v, out, s1', s2'. auto.
Defined.

(** ** Alignment of equal and of opposite gradients *)

Lemma l2_norm_3_4 : l2_norm [[[3; 4]]] = 5.
Proof.
  unfold l2_norm. cbn.
  match goal with |- sqrt ?x = 5 => replace x with (5 * 5) by lra end.
  apply sqrt_square. lra.
Qed.

Lemma l2_norm_neg_3_4 : l2_norm [[[-3; -4]]] = 5.
Proof.
  unfold l2_norm. cbn.
  match goal with |- sqrt ?x = 5 => replace x with (5 * 5) by lra end.
  apply sqrt_square. lra.
Qed.

Lemma nonzero_5 : nonzero 5 = true.
Proof. unfold nonzero. destruct (Req_dec_T 5 0); [lra | reflexivity]. Qed.

Lemma nonzero_0 : nonzero 0 = false.
Proof. unfold nonzero. destruct (Req_dec_T 0 0); [reflexivity | lra]. Qed.

(** Equal nonzero gradients: cosine similarity 1, penalty 0. *)
Example align_equal_gradients :
  cos (align [[[[3; 4]]]] [[[[3; 4]]]]) = [1]
  /\ gradalign_loss (align [[[[3; 4]]]] [[[[3; 4]]]]) = PyFloat 0.
Proof.
  destruct (align_kept [[[[3; 4]]]] [[[[3; 4]]]]) as (_ & _ & _ & _ & Hc & Hl).
  cbv zeta in Hc, Hl. rewrite Hc, Hl.
  unfold kept_pairs. simpl. rewrite l2_norm_3_4, nonzero_5. simpl.
  unfold cosine_similarity, mean. rewrite l2_norm_3_4. cbn.
  split; [f_equal; lra | f_equal; lra].
Qed.

(** Opposite gradients: cosine similarity -1, penalty 2. *)
Example align_opposite_gradients :
  cos (align [[[[3; 4]]]] [[[[-3; -4]]]]) = [-1]
  /\ gradalign_loss (align [[[[3; 4]]]] [[[[-3; -4]]]]) = PyFloat 2.
Proof.
  destruct (align_kept [[[[3; 4]]]] [[[[-3; -4]]]]) as (_ & _ & _ & _ & Hc & Hl).
  cbv zeta in Hc, Hl. rewrite Hc, Hl.
  unfold kept_pairs. simpl. rewrite l2_norm_3_4, l2_norm_neg_3_4, nonzero_5. simpl.
  unfold cosine_similarity, mean. rewrite l2_norm_3_4, l2_norm_neg_3_4. cbn.
  split; [f_equal; lra | f_equal; lra].
Qed.

(** A sample whose first gradient is zero is dropped, not counted as a
    cosine of zero: the mean is taken over one sample, not two. *)
Example align_drops_zero_gradient :
  cos (align [[[[0; 0]]]; [[[3; 4]]]] [[[[3; 4]]]; [[[3; 4]]]]) = [1]
  /\ gradalign_loss (align [[[[0; 0]]]; [[[3; 4]]]] [[[[3; 4]]]; [[[3; 4]]]])
     = PyFloat 0.
Proof.
  destruct (align_kept [[[[0; 0]]]; [[[3; 4]]]] [[[[3; 4]]]; [[[3; 4]]]])
    as (_ & _ & _ & _ & Hc & Hl).
  cbv zeta in Hc, Hl. rewrite Hc, Hl.
  unfold kept_pairs. simpl.
  rewrite l2_norm_zero_sample, l2_norm_3_4, nonzero_5, nonzero_0. simpl.
  unfold cosine_similarity, mean. rewrite l2_norm_3_4. cbn.
  split; [f_equal; lra | f_equal; lra].
Qed.

(** ** The sign step with a nonzero gradient *)

Lemma sign_pos (x : R) : 0 < x -> sign x = 1.
Proof. intros H. unfold sign. destruct (Rlt_dec 0 x); [reflexivity | lra]. Qed.

(** With [X = 0.5], [delta1 = 0.01], a positive gradient, [eps = 0.1] and
    [alpha = 0.02], lines 70-72 give [0.51 + 0.02 = 0.53], where a step taken
    from [X] would give [0.52]. *)
Example fast_adv_sign_step :
  let x := mk_tensor [[[[1 / 2]]]] false in
  let x_new := mk_tensor [[[[51 / 100]]]; [[[49 / 100]]]] true in
  let g1 := mk_tensor [[[[2]]]] true in
  data (fast_adv (1 / 10) (1 / 50) x x_new g1) = [[[[53 / 100]]]]
  /\ data (fast_adv_spec (1 / 10) (1 / 50) x g1) = [[[[13 / 25]]]].
Proof.
  cbn. rewrite (sign_pos 2) by lra. clamp_eval. split; list_eq; lra.
Qed.

(** ** The further properties at the concrete run *)

Lemma doubled_batch_within_eps_ball_witness :
  (forall g, 0 <= fst (Constant.next_uniform g) < 1)
  /\ nth_error (memory Constant.start) 0 = Some (mk_cell CPU (Images Constant.batch))
  /\ nth_error (memory Constant.start) 1 = Some (mk_cell CPU (Labels Constant.classes))
  /\ 0 <= eps Constant.self
  /\ All4 (fun xi => 0 <= xi <= 1) (data Constant.batch)
  /\ exists (v : locals) (s' : state unit unit nat R nat Z) (a b : t4),
      Constant.do_iter_locals Constant.self (0%nat, 1%nat) Constant.start = Some (v, s')
      /\ data (X_new v) = a ++ b
      /\ Rel4 (fun xi ni => Rmax 0 (xi - 1 / 10) <= ni <= Rmin 1 (xi + 1 / 10))
              (data Constant.batch) a
      /\ Rel4 (fun xi ni => Rmax 0 (xi - 1 / 10) <= ni <= Rmin 1 (xi + 1 / 10))
              (data Constant.batch) b
      /\ All4 (fun ni => 0 <= ni <= 1) (data (X_new v))
      /\ Y_new v = (Constant.classes ++ Constant.classes)%list.
Proof.
  split; [exact Constant_next_uniform_range|].
  split; [reflexivity|]. split; [reflexivity|]. split; [simpl; lra|].
  split; [exact Constant_batch_pixels|].
  destruct (doubled_batch_within_eps_ball _ _ _ _ _ _
           Constant.model Constant.CrossEntropyLoss Constant.autograd_grad
           Constant.zero_grad Constant.backward Constant.optimizer_step
           Constant.next_uniform Constant.self 0%nat 1%nat Constant.start
           CPU CPU Constant.batch Constant.classes
           Constant_next_uniform_range eq_refl eq_refl)
    as (v & s' & a & b & H1 & H2 & H3 & H4 & H5 & H6 & _);
    [simpl; lra | exact Constant_batch_pixels |].
  exists v, s', a, b. auto 10.
Defined.

Lemma eps_zero_trains_on_clean_batch_witness :
  (forall f a b, same_shape a (fst (Constant.autograd_grad f a b)))
  /\ nth_error (memory Constant.start) 0 = Some (mk_cell CPU (Images Constant.batch))
  /\ nth_error (memory Constant.start) 1 = Some (mk_cell CPU (Labels Constant.classes))
  /\ eps (mk_trainer CPU 0 (1 / 8) (1 / 5)) = 0
  /\ All4 (fun xi => 0 <= xi <= 1) (data Constant.batch)
  /\ exists (v : locals) (s' : state unit unit nat R nat Z),
      Constant.do_iter_locals (mk_trainer CPU 0 (1 / 8) (1 / 5)) (0%nat, 1%nat)
                              Constant.start = Some (v, s')
      /\ All4 (fun d => d = 0) (data (delta1 v))
      /\ All4 (fun d => d = 0) (data (delta2 v))
      /\ data (X_new v) = data Constant.batch ++ data Constant.batch
      /\ data (X_adv v) = data Constant.batch.
Proof.
  split; [exact Constant_autograd_grad_shape|].
  split; [reflexivity|]. split; [reflexivity|]. split; [reflexivity|].
  split; [exact Constant_batch_pixels|].
  apply (eps_zero_trains_on_clean_batch _ _ _ _ _ _
           Constant.model Constant.CrossEntropyLoss Constant.autograd_grad
           Constant.zero_grad Constant.backward Constant.optimizer_step
           Constant.next_uniform (mk_trainer CPU 0 (1 / 8) (1 / 5))
           0%nat 1%nat Constant.start CPU CPU Constant.batch Constant.classes);
    [exact Constant_autograd_grad_shape | reflexivity | reflexivity
     | reflexivity | exact Constant_batch_pixels].
Defined.

Lemma zero_gradient_keeps_random_start_witness :
  (forall g, 0 <= fst (Constant.next_uniform g) < 1)
  /\ nth_error (memory Constant.start) 0 = Some (mk_cell CPU (Images Constant.batch))
  /\ nth_error (memory Constant.start) 1 = Some (mk_cell CPU (Labels Constant.classes))
  /\ 0 <= eps Constant.self
  /\ All4 (fun xi => 0 <= xi <= 1) (data Constant.batch)
  /\ exists (v : locals) (s' : state unit unit nat R nat Z),
      Constant.do_iter_locals Constant.self (0%nat, 1%nat) Constant.start = Some (v, s')
      /\ forall n c h w x,
          entry (data Constant.batch) n c h w = Some x ->
          entry (data (grad1 v)) n c h w = Some 0 ->
          entry (data (X_adv v)) n c h w = entry (data (X_new v)) n c h w.
Proof.
  split; [exact Constant_next_uniform_range|].
  split; [reflexivity|]. split; [reflexivity|]. split; [simpl; lra|].
  split; [exact Constant_batch_pixels|].
  apply (zero_gradient_keeps_random_start _ _ _ _ _ _
           Constant.model Constant.CrossEntropyLoss Constant.autograd_grad
           Constant.zero_grad Constant.backward Constant.optimizer_step
           Constant.next_uniform Constant.self
           0%nat 1%nat Constant.start CPU CPU Constant.batch Constant.classes);
    [exact Constant_next_uniform_range | reflexivity | reflexivity
     | simpl; lra | exact Constant_batch_pixels].
Defined.

Lemma step_fails_for_negative_eps_witness :
  nth_error (memory Constant.start) 0 = Some (mk_cell CPU (Images Constant.batch))
  /\ nth_error (memory Constant.start) 1 = Some (mk_cell CPU (Labels Constant.classes))
  /\ eps (mk_trainer CPU (- (1 / 10)) (1 / 8) (1 / 5)) < 0
  /\ Constant.do_iter_locals (mk_trainer CPU (- (1 / 10)) (1 / 8) (1 / 5))
                             (0%nat, 1%nat) Constant.start = None
  /\ Constant.do_iter (mk_trainer CPU (- (1 / 10)) (1 / 8) (1 / 5))
                      (0%nat, 1%nat) Constant.start = None.
Proof.
  split; [reflexivity|]. split; [reflexivity|]. split; [simpl; lra|].
  apply (step_fails_for_negative_eps _ _ _ _ _ _
           Constant.model Constant.CrossEntropyLoss Constant.autograd_grad
           Constant.zero_grad Constant.backward Constant.optimizer_step
           Constant.next_uniform (mk_trainer CPU (- (1 / 10)) (1 / 8) (1 / 5))
           0%nat 1%nat Constant.start CPU CPU Constant.batch Constant.classes);
    [reflexivity | reflexivity | simpl; lra].
Defined.
